(** * Leaderboard proxy (server.js): normalizer, cache manager, HTTP front door

    A shallow embedding of [server.js].  The feed is a tree of JavaScript
    values as [JSON.parse] builds it; every function below follows the
    JavaScript function of the same name, with the language's own rules for
    truthiness, property reads, method calls and string conversion written
    out, since the program relies on them at every step. *)

From Stdlib Require Import ZArith List String Ascii Bool Lia.
From Stdlib Require Import DecimalString DecimalPos DecimalN DecimalZ.
Import ListNotations.

Local Open Scope string_scope.
Local Open Scope Z_scope.

(** ** Completions

    An evaluation either returns, or throws an exception of which the
    program only ever reads [e.message], or is [Inexact]: its outcome depends
    on IEEE-754 rounding or on the number grammar of string-to-number
    conversion, neither of which this development describes.  An [Inexact]
    outcome is carried through as such and never taken for a return.

    The texts of the engine's own [TypeError]s are implementation-defined;
    those below are modelled on V8's and serve only as the message that
    [getLeaderboard] copies. *)

Inductive exn : Type :=
| TypeError (msg : string)
| Error (msg : string).

Definition message (e : exn) : string :=
  match e with
  | TypeError m => m
  | Error m => m
  end.

Inductive completion (A : Type) : Type :=
| Normal (a : A)
| Thrown (e : exn)
| Inexact.

Arguments Normal {A} a.
Arguments Thrown {A} e.
Arguments Inexact {A}.

Definition bind {A B : Type} (c : completion A) (k : A -> completion B)
  : completion B :=
  match c with
  | Normal a => k a
  | Thrown e => Thrown e
  | Inexact => Inexact
  end.

Notation "x <- c1 ;; c2" := (bind c1 (fun x => c2))
  (at level 61, c1 at next level, right associativity).

(** ** Values

    Strings are sequences of code units; the development covers the code
    units below 256.  Numbers are the integer-valued ones, exact up to
    [2^53] in magnitude.  An object keeps its properties in insertion
    order, each key once, as [JSON.parse] leaves them. *)

#[local] Set Warnings "-register-all".

Inductive value : Type :=
| VUndefined
| VNull
| VBool (b : bool)
| VNumber (n : Z)
| VString (s : string)
| VArray (items : list value)
| VObject (props : list (string * value)).

(** ToBoolean. *)
Definition truthy (v : value) : bool :=
  match v with
  | VUndefined => false
  | VNull => false
  | VBool b => b
  | VNumber n => negb (n =? 0)
  | VString s => negb (s =? "")%string
  | VArray _ => true
  | VObject _ => true
  end.

(** [a || b] with [b] a literal, [a || b] and [a && b] with [b] an
    expression that is only evaluated when the left operand lets it. *)
Definition js_or (a b : value) : value := if truthy a then a else b.

Definition js_or_else (a : value) (b : completion value) : completion value :=
  if truthy a then Normal a else b.

Definition js_and (a : value) (b : completion value) : completion value :=
  if truthy a then b else Normal a.

(** [x === 'literal']. *)
Definition is_string (v : value) (lit : string) : bool :=
  match v with
  | VString s => (s =? lit)%string
  | _ => false
  end.

Fixpoint lookup (key : string) (props : list (string * value)) : option value :=
  match props with
  | [] => None
  | (k, v) :: rest => if (k =? key)%string then Some v else lookup key rest
  end.

(** Number::toString on an integer of magnitude at most [2^53], where every
    digit is printed.  Above it the engine prints the shortest digits that
    read back as the same double, and from [1e21] the exponent form; no
    statement below is made about the string of such a number. *)
Definition number_to_string (n : Z) : string :=
  NilZero.string_of_int (Z.to_int n).

(** [v.name] for the identifiers the program reads: [events],
    [competitions], [status], [type], [name], [period], [shortDetail],
    [competitors], [score], [sortOrder], [linescores], [athlete],
    [displayName] and [length].  None of them is a property of
    [Object.prototype], [Array.prototype], [String.prototype],
    [Number.prototype] or [Boolean.prototype] except [length], which strings
    and arrays own. *)
Definition get (v : value) (name : string) : completion value :=
  match v with
  | VUndefined =>
      Thrown (TypeError ("Cannot read properties of undefined (reading '"
                         ++ name ++ "')"))
  | VNull =>
      Thrown (TypeError ("Cannot read properties of null (reading '"
                         ++ name ++ "')"))
  | VBool _ => Normal VUndefined
  | VNumber _ => Normal VUndefined
  | VString s =>
      Normal (if (name =? "length")%string then VNumber (Z.of_nat (String.length s))
              else VUndefined)
  | VArray items =>
      Normal (if (name =? "length")%string then VNumber (Z.of_nat (List.length items))
              else VUndefined)
  | VObject props =>
      Normal (match lookup name props with
              | Some x => x
              | None => VUndefined
              end)
  end.

(** [v[i]] for a number [i]: an element, a code unit, or the property whose
    key is the number's string. *)
Definition get_index (v : value) (i : Z) : completion value :=
  match v with
  | VUndefined =>
      Thrown (TypeError ("Cannot read properties of undefined (reading '"
                         ++ number_to_string i ++ "')"))
  | VNull =>
      Thrown (TypeError ("Cannot read properties of null (reading '"
                         ++ number_to_string i ++ "')"))
  | VBool _ => Normal VUndefined
  | VNumber _ => Normal VUndefined
  | VString s =>
      Normal (if i <? 0 then VUndefined
              else match String.get (Z.to_nat i) s with
                   | Some c => VString (String c "")
                   | None => VUndefined
                   end)
  | VArray items =>
      Normal (if i <? 0 then VUndefined
              else match nth_error items (Z.to_nat i) with
                   | Some x => x
                   | None => VUndefined
                   end)
  | VObject props =>
      Normal (match lookup (number_to_string i) props with
              | Some x => x
              | None => VUndefined
              end)
  end.

(** ToString, which [String(v)], [parseInt(v)] and ['...' + v] all go
    through.  An object is asked for its [toString]: a property of that name
    read from JSON is not callable, [Object.prototype.valueOf] gives the
    object back, and the conversion throws; without it
    [Object.prototype.toString] answers.  An array joins its elements with
    commas, [null] and [undefined] as the empty string. *)
Fixpoint to_string (v : value) : completion string :=
  match v with
  | VUndefined => Normal "undefined"
  | VNull => Normal "null"
  | VBool true => Normal "true"
  | VBool false => Normal "false"
  | VNumber n => Normal (number_to_string n)
  | VString s => Normal s
  | VArray items =>
      (fix join (l : list value) : completion string :=
         match l with
         | [] => Normal ""
         | x :: rest =>
             sx <- match x with
                   | VUndefined => Normal ""
                   | VNull => Normal ""
                   | _ => to_string x
                   end ;;
             match rest with
             | [] => Normal sx
             | _ :: _ => sr <- join rest ;; Normal (sx ++ "," ++ sr)
             end
         end) items
  | VObject props =>
      match lookup "toString" props with
      | Some _ => Thrown (TypeError "Cannot convert object to primitive value")
      | None => Normal "[object Object]"
      end
  end.

(** ToNumber, as the comparison [length > 0] and the subtraction
    [length - 1] need it; [None] is NaN.  Strings, and arrays and objects
    which convert through their strings, follow the number grammar. *)
Definition to_number (v : value) : completion (option Z) :=
  match v with
  | VUndefined => Normal None
  | VNull => Normal (Some 0)
  | VBool true => Normal (Some 1)
  | VBool false => Normal (Some 0)
  | VNumber n => Normal (Some n)
  | VString _ => Inexact
  | VArray _ => Inexact
  | VObject _ => Inexact
  end.

(** ** parseInt *)

Definition is_whitespace (c : ascii) : bool :=
  let n := nat_of_ascii c in
  ((n =? 9) || (n =? 10) || (n =? 11) || (n =? 12) || (n =? 13)
   || (n =? 32) || (n =? 160))%nat.

Fixpoint trim_start (s : string) : string :=
  match s with
  | EmptyString => EmptyString
  | String c rest => if is_whitespace c then trim_start rest else s
  end.

Definition digit_value (radix : Z) (c : ascii) : option Z :=
  let n := Z.of_nat (nat_of_ascii c) in
  let d := if (48 <=? n) && (n <=? 57) then Some (n - 48)
           else if (97 <=? n) && (n <=? 122) then Some (n - 87)
           else if (65 <=? n) && (n <=? 90) then Some (n - 55)
           else None in
  match d with
  | Some d => if d <? radix then Some d else None
  | None => None
  end.

(** The longest prefix of digits, read left to right; [None] while no digit
    has been seen. *)
Fixpoint accumulate (radix : Z) (s : string) (acc : option Z) : option Z :=
  match s with
  | EmptyString => acc
  | String c rest =>
      match digit_value radix c with
      | Some d =>
          accumulate radix rest
            (Some (match acc with Some a => a * radix + d | None => d end))
      | None => acc
      end
  end.

Definition strip_sign (s : string) : Z * string :=
  match s with
  | String "-" rest => (-1, rest)
  | String "+" rest => (1, rest)
  | _ => (1, s)
  end.

Definition strip_radix (s : string) : Z * string :=
  match s with
  | String "0" (String "x" rest) => (16, rest)
  | String "0" (String "X" rest) => (16, rest)
  | _ => (10, s)
  end.

(** [parseInt(s)] with no radix argument; [None] is NaN.  The result is a
    double: an integer above [2^53] may have been rounded. *)
Definition parseInt_string (s : string) : completion (option Z) :=
  let (sign, s1) := strip_sign (trim_start s) in
  let (radix, s2) := strip_radix s1 in
  match accumulate radix s2 None with
  | None => Normal None
  | Some m => if m <=? 2 ^ 53 then Normal (Some (sign * m)) else Inexact
  end.

Definition parseInt (v : value) : completion (option Z) :=
  s <- to_string v ;; parseInt_string s.

(** ** toLowerCase, on the code units below 256 *)

Definition lower_char (c : ascii) : ascii :=
  let n := nat_of_ascii c in
  if ((65 <=? n) && (n <=? 90)
      || (192 <=? n) && (n <=? 222) && negb (n =? 215))%nat
  then ascii_of_nat (n + 32)
  else c.

Fixpoint lower_string (s : string) : string :=
  match s with
  | EmptyString => EmptyString
  | String c rest => String (lower_char c) (lower_string rest)
  end.

(** [v.toLowerCase()]: only a string has the method. *)
Definition toLowerCase (v : value) (expr : string) : completion string :=
  match v with
  | VString s => Normal (lower_string s)
  | VUndefined =>
      Thrown (TypeError "Cannot read properties of undefined (reading 'toLowerCase')")
  | VNull =>
      Thrown (TypeError "Cannot read properties of null (reading 'toLowerCase')")
  | _ => Thrown (TypeError (expr ++ ".toLowerCase is not a function"))
  end.

(** ** Array methods *)

Definition not_a_function {A : Type} (v : value) (expr method : string)
  : completion A :=
  match v with
  | VUndefined =>
      Thrown (TypeError ("Cannot read properties of undefined (reading '"
                         ++ method ++ "')"))
  | VNull =>
      Thrown (TypeError ("Cannot read properties of null (reading '"
                         ++ method ++ "')"))
  | _ => Thrown (TypeError (expr ++ "." ++ method ++ " is not a function"))
  end.

Fixpoint find_in (f : value -> completion bool) (l : list value)
  : completion value :=
  match l with
  | [] => Normal VUndefined
  | x :: rest => b <- f x ;; if b then Normal x else find_in f rest
  end.

(** [v.find(f)]. *)
Definition array_find (v : value) (expr : string)
  (f : value -> completion bool) : completion value :=
  match v with
  | VArray items => find_in f items
  | _ => not_a_function v expr "find"
  end.

Fixpoint map_from (f : value -> nat -> completion value) (idx : nat)
  (l : list value) : completion (list value) :=
  match l with
  | [] => Normal []
  | x :: rest =>
      y <- f x idx ;;
      ys <- map_from f (S idx) rest ;;
      Normal (y :: ys)
  end.

(** [v.map(f)], the callback taking the element and its index. *)
Definition array_map (v : value) (expr : string)
  (f : value -> nat -> completion value) : completion (list value) :=
  match v with
  | VArray items => map_from f 0%nat items
  | _ => not_a_function v expr "map"
  end.

(** ** The normalizer *)

(** [compet.status && compet.status.type && compet.status.type.name || ''] *)
Definition status_name (compet : value) : completion value :=
  st <- get compet "status" ;;
  x <- js_and st (ty <- get st "type" ;; js_and ty (get ty "name")) ;;
  Normal (js_or x (VString "")).

(** [compet.status && compet.status.type && compet.status.type.shortDetail || ''] *)
Definition status_detail (compet : value) : completion value :=
  st <- get compet "status" ;;
  x <- js_and st (ty <- get st "type" ;; js_and ty (get ty "shortDetail")) ;;
  Normal (js_or x (VString "")).

(** [compet.status && compet.status.period || 1] *)
Definition round_number (compet : value) : completion value :=
  st <- get compet "status" ;;
  x <- js_and st (get st "period") ;;
  Normal (js_or x (VNumber 1)).

(** [e.competitions && e.competitions[0]] *)
Definition primary_competition (e : value) : completion value :=
  comps <- get e "competitions" ;;
  js_and comps (get_index comps 0).

(** The callback of [events.find]. *)
Definition is_active (e : value) : completion bool :=
  compet <- primary_competition e ;;
  if negb (truthy compet) then Normal false
  else
    statusName <- status_name compet ;;
    Normal (is_string statusName "STATUS_IN_PROGRESS"
            || is_string statusName "STATUS_PLAY_COMPLETE").

(** [events.find(...) || events[0]] *)
Definition active_event (events : value) : completion value :=
  found <- array_find events "events" is_active ;;
  js_or_else found (get_index events 0).

Definition validStatuses : list string :=
  ["STATUS_IN_PROGRESS"; "STATUS_SCHEDULED"; "STATUS_FINAL";
   "STATUS_PLAY_COMPLETE"].

(** [validStatuses.includes(statusName)] *)
Definition includes (l : list string) (v : value) : bool :=
  existsb (is_string v) l.

Definition is_finished (statusName : value) : bool :=
  is_string statusName "STATUS_FINAL"
  || is_string statusName "STATUS_PLAY_COMPLETE".

(** [const rawScore = c.score || '0'; const n = parseInt(rawScore);
     const score = isNaN(n) ? 'E' : n === 0 ? 'E' : n < 0 ? String(n) : '+' + n;] *)
Definition format_score (n : option Z) : string :=
  match n with
  | None => "E"
  | Some n =>
      if n =? 0 then "E"
      else if n <? 0 then number_to_string n
      else "+" ++ number_to_string n
  end.

Definition player_score (c : value) : completion string :=
  sc <- get c "score" ;;
  let rawScore := js_or sc (VString "0") in
  n <- parseInt rawScore ;;
  Normal (format_score n).

(** The double quote, and the expression [(c.status || '')] as the engine
    prints it in its message: with the empty literal in double quotes. *)
Definition double_quote : string := String (ascii_of_nat 34) EmptyString.

Definition status_expression : string :=
  ("(c.status || " ++ double_quote ++ double_quote ++ ")")%string.

(** The position: [MC], [WD], or the sort order, or the index plus one. *)
Definition player_position (c : value) (idx : nat) : completion string :=
  st <- get c "status" ;;
  athleteStatus <- toLowerCase (js_or st (VString "")) status_expression ;;
  if (athleteStatus =? "cut")%string then Normal "MC"
  else if (athleteStatus =? "wd")%string then Normal "WD"
  else
    so <- get c "sortOrder" ;;
    if truthy so then to_string so
    else Normal (number_to_string (Z.of_nat idx + 1)).

(** [x > 0] *)
Definition greater_than_zero (v : value) : completion bool :=
  n <- to_number v ;;
  Normal (match n with Some n => 0 <? n | None => false end).

(** [a[a.length - 1]], reached only when [a.length > 0]; a NaN index
    names the property [NaN]. *)
Definition last_entry (a : value) : completion value :=
  len <- get a "length" ;;
  n <- to_number len ;;
  match n with
  | Some n => get_index a (n - 1)
  | None => get a "NaN"
  end.

Definition player_thru (isFinished : bool) (c : value) : completion string :=
  if isFinished then Normal "F"
  else
    ls <- get c "linescores" ;;
    has <- (if truthy ls
            then len <- get ls "length" ;; greater_than_zero len
            else Normal false) ;;
    if has then
      currentRound <- last_entry ls ;;
      sub <- js_and currentRound (get currentRound "linescores") ;;
      if truthy sub then
        len <- get sub "length" ;;
        to_string len
      else Normal "F"
    else Normal "--".

(** [c.athlete && c.athlete.displayName || ''] *)
Definition player_name (c : value) : completion value :=
  a <- get c "athlete" ;;
  x <- js_and a (get a "displayName") ;;
  Normal (js_or x (VString "")).

(** The callback of [competitors.map]. *)
Definition player (isFinished : bool) (c : value) (idx : nat)
  : completion value :=
  score <- player_score c ;;
  pos <- player_position c idx ;;
  thru <- player_thru isFinished c ;;
  name <- player_name c ;;
  Normal (VObject [("name", name); ("score", VString score);
                   ("thru", VString thru); ("position", VString pos)]).

(** The callback of [filter]: [p => p.name] on the objects built above. *)
Definition has_name (p : value) : bool :=
  match get p "name" with
  | Normal n => truthy n
  | _ => false
  end.

Definition no_tournament : value :=
  VObject [("status", VString "no_tournament")].

(** [parseLeaderboard(espnData)]; [isoNow] is what
    [new Date().toISOString()] answers when the snapshot is built. *)
Definition parseLeaderboard (isoNow : string) (espnData : value)
  : completion value :=
  ev <- get espnData "events" ;;
  let events := js_or ev (VArray []) in
  activeEvent <- active_event events ;;
  if negb (truthy activeEvent) then Normal no_tournament
  else
    compet <- primary_competition activeEvent ;;
    if negb (truthy compet) then Normal no_tournament
    else
      statusName <- status_name compet ;;
      if negb (includes validStatuses statusName) then Normal no_tournament
      else
        roundNum <- round_number compet ;;
        statusDesc <- status_detail compet ;;
        let isFinished := is_finished statusName in
        cs <- get compet "competitors" ;;
        mapped <- array_map (js_or cs (VArray []))
                    "(compet.competitors || [])" (player isFinished) ;;
        let players := filter has_name mapped in
        if (List.length players =? 0)%nat then Normal no_tournament
        else
          nm <- get activeEvent "name" ;;
          round <- to_string roundNum ;;
          Normal (VObject
            [("status", VString "ok");
             ("tournament", js_or nm (VString "PGA Tour Event"));
             ("round", VString ("Round " ++ round));
             ("roundStatus", statusDesc);
             ("players", VArray players);
             ("fetchedAt", VString isoNow)]).

(** ** Effects

    [getLeaderboard] is an [async] function over two module-level variables.
    A [task] is its body as a tree: synchronous steps that read the clock,
    read or assign [cache] and [cacheTime], or print, and [Await], where
    [fetchESPN()] has issued its request and the function is suspended until
    the promise settles. *)

Inductive settled : Type :=
| Resolved (raw : value)
| Rejected (e : exn).

Inductive line : Type :=
| Log (text : string)
| Err (text : string).

Inductive action : Type -> Type :=
| DateNow : action Z
| NewDateISO : action string
| NewDateLocaleTime : action string
| ProcessUptime : action value
| ReadCache : action value
| WriteCache (v : value) : action unit
| ReadCacheTime : action Z
| WriteCacheTime (t : Z) : action unit
| Console (l : line) : action unit.

Inductive task (A : Type) : Type :=
| Return (a : A)
| Raise (e : exn)
| Undetermined
| Do (X : Type) (a : action X) (k : X -> task A)
| Await (k : settled -> task A).

Arguments Return {A} a.
Arguments Raise {A} e.
Arguments Undetermined {A}.
Arguments Do {A X} a k.
Arguments Await {A} k.

Fixpoint then_ {A B : Type} (t : task A) (f : A -> task B) : task B :=
  match t with
  | Return a => f a
  | Raise e => Raise e
  | Undetermined => Undetermined
  | Do a k => Do a (fun x => then_ (k x) f)
  | Await k => Await (fun o => then_ (k o) f)
  end.

Notation "x <~ t1 ;; t2" := (then_ t1 (fun x => t2))
  (at level 61, t1 at next level, right associativity).

(** [try { t } catch (e) { handler e }] *)
Fixpoint try_catch {A : Type} (t : task A) (handler : exn -> task A) : task A :=
  match t with
  | Return a => Return a
  | Raise e => handler e
  | Undetermined => Undetermined
  | Do a k => Do a (fun x => try_catch (k x) handler)
  | Await k => Await (fun o => try_catch (k o) handler)
  end.

Definition perform {X : Type} (a : action X) : task X := Do a Return.

Definition lift {A : Type} (c : completion A) : task A :=
  match c with
  | Normal a => Return a
  | Thrown e => Raise e
  | Inexact => Undetermined
  end.

(** [await fetchESPN()] *)
Definition fetchESPN : task value :=
  Await (fun o => match o with
                  | Resolved raw => Return raw
                  | Rejected e => Raise e
                  end).

(** ** The cache manager *)

Record store : Type := { cache : value; cacheTime : Z }.

Definition initial_store : store := {| cache := VNull; cacheTime := 0 |}.

Definition CACHE_TTL : Z := 60 * 1000.

(** [cache && (now - cacheTime) < CACHE_TTL] *)
Definition is_fresh (c : value) (t now : Z) : bool :=
  truthy c && (now - t <? CACHE_TTL).

(** The second argument of the [console.log] call in [getLeaderboard]. *)
Definition refreshed_summary (c : value) : completion string :=
  st <- get c "status" ;;
  if is_string st "ok" then
    t <- get c "tournament" ;;
    ts <- to_string t ;;
    r <- get c "round" ;;
    rs <- to_string r ;;
    ps <- get c "players" ;;
    n <- get ps "length" ;;
    ns <- to_string n ;;
    Normal (ts ++ " " ++ rs ++ " (" ++ ns ++ " players)")%string
  else to_string st.

Definition error_value (e : exn) : value :=
  VObject [("status", VString "error"); ("message", VString (message e))].

(** [getLeaderboard()].  The clock read of [parseLeaderboard] is done just
    before it is called. *)
Definition getLeaderboard : task value :=
  now <~ perform DateNow ;;
  c <~ perform ReadCache ;;
  t <~ perform ReadCacheTime ;;
  if is_fresh c t now then Return c
  else
    try_catch
      (raw <~ fetchESPN ;;
       iso <~ perform NewDateISO ;;
       parsed <~ lift (parseLeaderboard iso raw) ;;
       _ <~ perform (WriteCache parsed) ;;
       _ <~ perform (WriteCacheTime now) ;;
       lt <~ perform NewDateLocaleTime ;;
       c1 <~ perform ReadCache ;;
       summary <~ lift (refreshed_summary c1) ;;
       _ <~ perform (Console (Log ("[" ++ lt ++ "] Leaderboard refreshed - "
                                   ++ summary)%string)) ;;
       perform ReadCache)
      (fun e =>
         _ <~ perform (Console (Err ("Fetch error: " ++ message e)%string)) ;;
         c2 <~ perform ReadCache ;;
         if truthy c2 then Return c2 else Return (error_value e)).

(** ** The HTTP front door *)

Record request : Type := { method : string; url : string }.

(** [Json v] is the text [JSON.stringify(v)]. *)
Inductive body : Type :=
| NoBody
| Json (v : value).

Record response : Type := {
  headers : list (string * string);
  code : Z;
  payload : body
}.

Definition fixed_headers : list (string * string) :=
  [("Access-Control-Allow-Origin", "*");
   ("Access-Control-Allow-Methods", "GET, OPTIONS");
   ("Access-Control-Allow-Headers", "Content-Type");
   ("Content-Type", "application/json")].

Definition respond (c : Z) (b : body) : response :=
  {| headers := fixed_headers; code := c; payload := b |}.

Definition not_found : response :=
  respond 404 (Json (VObject [("error", VString "Not found")])).

(** The callback of [http.createServer]. *)
Definition handler (req : request) : task response :=
  if (method req =? "OPTIONS")%string then Return (respond 204 NoBody)
  else if ((url req =? "/leaderboard") || (url req =? "/"))%string then
    try_catch
      (data <~ getLeaderboard ;; Return (respond 200 (Json data)))
      (fun e => Return (respond 500 (Json (error_value e))))
  else if (url req =? "/health")%string then
    up <~ perform ProcessUptime ;;
    Return (respond 200 (Json (VObject [("ok", VBool true); ("uptime", up)])))
  else Return not_found.

(** ** Running tasks

    The [host] is what the platform answers during one call: the clock at
    its three reads and the process uptime. *)

Record host : Type := {
  now : Z;
  isoNow : string;
  localeTime : string;
  uptime : value
}.

Definition answer {X : Type} (a : action X) (h : host) (s : store)
  (out : list line) : X * store * list line :=
  match a in action X return X * store * list line with
  | DateNow => (now h, s, out)
  | NewDateISO => (isoNow h, s, out)
  | NewDateLocaleTime => (localeTime h, s, out)
  | ProcessUptime => (uptime h, s, out)
  | ReadCache => (cache s, s, out)
  | WriteCache v => (tt, {| cache := v; cacheTime := cacheTime s |}, out)
  | ReadCacheTime => (cacheTime s, s, out)
  | WriteCacheTime t => (tt, {| cache := cache s; cacheTime := t |}, out)
  | Console l => (tt, s, (out ++ [l])%list)
  end.

(** One turn of the event loop: the task runs without interruption until it
    completes or reaches an [Await]. *)
Inductive progress (A : Type) : Type :=
| Finished (r : completion A)
| Suspended (k : settled -> task A).

Arguments Finished {A} r.
Arguments Suspended {A} k.

Fixpoint advance {A : Type} (h : host) (t : task A) (s : store)
  (out : list line) : progress A * store * list line :=
  match t with
  | Return a => (Finished (Normal a), s, out)
  | Raise e => (Finished (Thrown e), s, out)
  | Undetermined => (Finished Inexact, s, out)
  | Do a k => let '(x, s', out') := answer a h s out in advance h (k x) s' out'
  | Await k => (Suspended k, s, out)
  end.

(** A call run on its own, each fetch it issues settling with the next of
    the given outcomes before anything else happens.  [returned] is [None]
    when the call is left waiting. *)
Record report (A : Type) : Type := {
  returned : option (completion A);
  after : store;
  fetches : nat;
  console : list line
}.

Arguments returned {A} r.
Arguments after {A} r.
Arguments fetches {A} r.
Arguments console {A} r.

Fixpoint run {A : Type} (h : host) (t : task A) (os : list settled)
  (s : store) (n : nat) (out : list line) : report A :=
  match t with
  | Return a =>
      {| returned := Some (Normal a); after := s; fetches := n; console := out |}
  | Raise e =>
      {| returned := Some (Thrown e); after := s; fetches := n; console := out |}
  | Undetermined =>
      {| returned := Some Inexact; after := s; fetches := n; console := out |}
  | Do a k => let '(x, s', out') := answer a h s out in run h (k x) os s' n out'
  | Await k =>
      match os with
      | o :: os' => run h (k o) os' s (S n) out
      | [] => {| returned := None; after := s; fetches := S n; console := out |}
      end
  end.

(** One retrieval: the host, the outcome the fetch would have, the store. *)
Definition call (h : host) (o : settled) (s : store) : report value :=
  run h getLeaderboard [o] s 0%nat [].

(** One request served on its own. *)
Definition serve (req : request) (h : host) (o : settled) (s : store)
  : report response :=
  run h (handler req) [o] s 0%nat [].

(** Retrievals one after the other, each complete before the next starts;
    the number of fetches issued in all. *)
Fixpoint session (calls : list (host * settled)) (s : store) : nat * store :=
  match calls with
  | [] => (0%nat, s)
  | (h, o) :: rest =>
      let r := call h o s in
      let '(n, s') := session rest (after r) in
      ((fetches r + n)%nat, s')
  end.

(** ** Overlapping calls

    Between two turns of the event loop another call may start.  The server
    holds the store and the calls suspended on their fetches. *)

Record server : Type := {
  mem : store;
  in_flight : list (nat * (settled -> task value));
  replies : list (nat * completion value);
  issued : nat;
  printed : list line
}.

Definition boot (s : store) : server :=
  {| mem := s; in_flight := []; replies := []; issued := 0%nat; printed := [] |}.

Inductive event : Type :=
| Arrives (id : nat) (h : host)
| Settles (id : nat) (o : settled) (h : host).

Fixpoint take (id : nat) (l : list (nat * (settled -> task value)))
  : option ((settled -> task value) * list (nat * (settled -> task value))) :=
  match l with
  | [] => None
  | (i, k) :: rest =>
      if (i =? id)%nat then Some (k, rest)
      else match take id rest with
           | Some (k', rest') => Some (k', (i, k) :: rest')
           | None => None
           end
  end.

Definition turn (id : nat) (h : host) (t : task value) (sv : server)
  (waiting : list (nat * (settled -> task value))) : server :=
  match advance h t (mem sv) (printed sv) with
  | (Finished r, s', out) =>
      {| mem := s'; in_flight := waiting;
         replies := (replies sv ++ [(id, r)])%list;
         issued := issued sv; printed := out |}
  | (Suspended k, s', out) =>
      {| mem := s'; in_flight := (waiting ++ [(id, k)])%list;
         replies := replies sv;
         issued := S (issued sv); printed := out |}
  end.

Definition step (sv : server) (ev : event) : server :=
  match ev with
  | Arrives id h => turn id h getLeaderboard sv (in_flight sv)
  | Settles id o h =>
      match take id (in_flight sv) with
      | Some (k, rest) => turn id h (k o) sv rest
      | None => sv
      end
  end.

Definition play (evs : list event) (sv : server) : server :=
  fold_left step evs sv.

(** Calls that do not overlap, as events: each settles before the next
    arrives. *)
Definition serial (calls : list (nat * host * settled * host)) : list event :=
  flat_map (fun '(id, h, o, h') => [Arrives id h; Settles id o h']) calls.

(** What the continuation of a call started at [t0] does once its fetch
    has settled: it completes within the turn, and when the payload
    normalizes it leaves the snapshot in the store, stamped [t0]. *)
Definition completes (t0 : Z) (k : settled -> task value) : Prop :=
  forall h' o s' out',
    exists r s'' out'',
      advance h' (k o) s' out' = (Finished r, s'', out'')
      /\ (forall raw snap,
             o = Resolved raw ->
             parseLeaderboard (isoNow h') raw = Normal snap ->
             s'' = {| cache := snap; cacheTime := t0 |}).

(** ** The ways a retrieval ends

    What [call] reports on each path of [getLeaderboard]: the cached value
    served, a refresh that failed, a refresh that stored a new snapshot. *)

Definition fresh (h : host) (s : store) : bool :=
  is_fresh (cache s) (cacheTime s) (now h).

Definition served (s : store) : report value :=
  {| returned := Some (Normal (cache s)); after := s; fetches := 0%nat;
     console := [] |}.

Definition failed (e : exn) (s : store) : report value :=
  {| returned := Some (Normal (if truthy (cache s) then cache s
                               else error_value e));
     after := s; fetches := 1%nat;
     console := [Err ("Fetch error: " ++ message e)%string] |}.

Definition refreshed (h : host) (snap : value) : report value :=
  let s' := {| cache := snap; cacheTime := now h |} in
  match refreshed_summary snap with
  | Normal sm =>
      {| returned := Some (Normal snap); after := s'; fetches := 1%nat;
         console := [Log ("[" ++ localeTime h ++ "] Leaderboard refreshed - "
                          ++ sm)%string] |}
  | Thrown e =>
      {| returned := Some (Normal (if truthy snap then snap else error_value e));
         after := s'; fetches := 1%nat;
         console := [Err ("Fetch error: " ++ message e)%string] |}
  | Inexact =>
      {| returned := Some Inexact; after := s'; fetches := 1%nat;
         console := [] |}
  end.


(** The values in which every number is at most [2^53] in magnitude:
    those whose string the development gives exactly. *)
Fixpoint in_range (v : value) : bool :=
  match v with
  | VNumber n => Z.abs n <=? 2 ^ 53
  | VArray items => forallb in_range items
  | VObject props => forallb (fun kv => in_range (snd kv)) props
  | _ => true
  end.

(** ** The shape of a feed

    A payload conforms when every field the normalizer reads is absent,
    [null], or of the type the feed gives it; the entries of [events] and of
    [competitors] are objects.  It is the hypothesis under which the
    normalizer is shown to return. *)


















(** Equality of a status with [cut] or [wd] whatever the case of its
    letters, as the specification words it. *)
Definition same_letter (lower upper c : ascii) : bool :=
  (Ascii.eqb c lower || Ascii.eqb c upper)%bool.

Definition is_cut (s : string) : bool :=
  match s with
  | String a (String b (String c EmptyString)) =>
      same_letter "c" "C" a && same_letter "u" "U" b && same_letter "t" "T" c
  | _ => false
  end.

Definition is_wd (s : string) : bool :=
  match s with
  | String a (String b EmptyString) =>
      same_letter "w" "W" a && same_letter "d" "D" b
  | _ => false
  end.

(** ** A sample feed *)

Definition sample_competition (statusName : string) (competitors : list value)
  : value :=
  VObject
    [("status",
      VObject [("type", VObject [("name", VString statusName);
                                 ("shortDetail", VString "Thru 9")]);
               ("period", VNumber 2)]);
     ("competitors", VArray competitors)].

Definition sample_feed : value :=
  VObject
    [("events",
      VArray
        [VObject
           [("name", VString "The Open");
            ("competitions",
             VArray
               [sample_competition "STATUS_IN_PROGRESS"
                  [VObject [("score", VString "0");
                            ("athlete", VObject [("displayName", VString "A")]);
                            ("linescores",
                             VArray [VObject [("linescores",
                                               VArray [VNull; VNull])]])];
                   VObject [("score", VString "-2");
                            ("status", VString "CUT");
                            ("athlete",
                             VObject [("displayName", VString "B")])]]])]])].

(** A competitor named [nm] with further fields, and a feed of one event
    with one competition. *)
Definition named (nm : string) (fields : list (string * value)) : value :=
  VObject (("athlete", VObject [("displayName", VString nm)]) :: fields).

Definition feed_of (statusName : string) (competitors : list value) : value :=
  VObject
    [("events",
      VArray [VObject [("name", VString "The Open");
                       ("competitions",
                        VArray [sample_competition statusName competitors])]])].

Definition entry (nm score thru position : string) : value :=
  VObject [("name", VString nm); ("score", VString score);
           ("thru", VString thru); ("position", VString position)].


(** Competitors that are cut, withdrawn, ranked by the feed, and given a
    sort order of 0. *)
Definition positioned_competitors : list value :=
  [named "A" [("status", VString "CuT"); ("sortOrder", VNumber 4)];
   named "B" [("status", VString "wD")];
   named "C" [("sortOrder", VNumber 7)];
   named "D" [("sortOrder", VNumber 0)]].



(** A competitor whose score is an object with a [toString] of its own. *)
Definition object_score_competitor : value :=
  named "A" [("score", VObject [("toString", VNull)])].

Definition at_time (t : Z) : host :=
  {| now := t; isoNow := "2024-01-01T00:00:00.000Z";
     localeTime := "12:00:00 AM"; uptime := VNumber 1 |}.

Definition sample_snapshot : value :=
  VObject
    [("status", VString "ok"); ("tournament", VString "The Open");
     ("round", VString "Round 2"); ("roundStatus", VString "Thru 9");
     ("players",
      VArray
        [VObject [("name", VString "A"); ("score", VString "E");
                  ("thru", VString "2"); ("position", VString "1")];
         VObject [("name", VString "B"); ("score", VString "-2");
                  ("thru", VString "--"); ("position", VString "MC")]]);
     ("fetchedAt", VString "2024-01-01T00:00:00.000Z")].

Definition finished_feed : value :=
  VObject
    [("events",
      VArray
        [VObject
           [("competitions",
             VArray
               [sample_competition "STATUS_FINAL"
                  [VObject [("score", VNumber 5);
                            ("athlete", VObject [("displayName", VString "A")]);
                            ("linescores",
                             VArray [VObject [("linescores",
                                               VArray [VNull; VNull])]])]]])]])].

(** A feed in which one competitor's status is a number. *)
Definition numeric_status_feed : value :=
  VObject
    [("events",
      VArray
        [VObject
           [("competitions",
             VArray
               [sample_competition "STATUS_IN_PROGRESS"
                  [VObject [("score", VString "-1");
                            ("status", VNumber 5);
                            ("athlete",
                             VObject [("displayName", VString "A")])]]])]])].



(** A feed in which the second of three competitors is [null]. *)
Definition null_competitor_feed : value :=
  VObject
    [("events",
      VArray
        [VObject
           [("competitions",
             VArray
               [sample_competition "STATUS_IN_PROGRESS"
                  [VObject [("score", VString "-1");
                            ("athlete", VObject [("displayName", VString "A")])];
                   VNull;
                   VObject [("score", VString "2");
                            ("athlete",
                             VObject [("displayName", VString "C")])]]])]])].

(** A feed in which the first and third competitors have no name. *)
Definition unnamed_competitor_feed : value :=
  VObject
    [("events",
      VArray
        [VObject
           [("competitions",
             VArray
               [sample_competition "STATUS_IN_PROGRESS"
                  [VObject [("score", VString "-1")];
                   VObject [("score", VString "2");
                            ("athlete", VObject [("displayName", VString "B")])];
                   VObject [("athlete", VObject [("displayName", VString "")])]]])]])].

(** ** Start-up

    The callback of [server.listen]: the banner, then one retrieval to warm
    the cache, awaited and its value dropped. *)





(** ** The remote fetcher

    [fetchESPN] builds a promise around one request.  What happens to the
    request arrives as events: the response callback is called, the
    response emits [data] and [end], the request emits [error], the socket
    stays idle for 10000 ms.  The handlers registered in [fetchESPN] react
    to them; a promise keeps the first settlement it is given.  No encoding
    is set on the response, so each chunk is a buffer that [data += chunk]
    decodes on its own: [Data] carries the string one chunk decodes to, and
    a character whose bytes fall in two chunks is not restored.
    [JSON.parse] is the platform's: [None] when it throws. *)

Inductive net_event : Type :=
| Response (statusCode : Z)
| Data (chunk : string)
| End
| RequestError (e : exn)
| SocketTimeout.

Record request_state : Type := {
  data : option string;
  promise : option settled
}.

Definition opened : request_state := {| data := None; promise := None |}.

(** [resolve(v)] and [reject(e)]: of no effect once the promise is settled. *)
Definition settle (o : settled) (st : request_state) : request_state :=
  match promise st with
  | Some _ => st
  | None => {| data := data st; promise := Some o |}
  end.

Section Fetcher.

Variable JSON_parse : string -> option value.

(** The body of the [end] handler. *)
Definition on_end (body : string) : settled :=
  match JSON_parse body with
  | Some v => Resolved v
  | None => Rejected (Error "Failed to parse ESPN response")
  end.

Definition react (st : request_state) (ev : net_event) : request_state :=
  match ev with
  | Response _ => {| data := Some ""%string; promise := promise st |}
  | Data chunk =>
      {| data := option_map (fun d => (d ++ chunk)%string) (data st);
         promise := promise st |}
  | End =>
      match data st with
      | Some body => settle (on_end body) st
      | None => st
      end
  | RequestError e => settle (Rejected e) st
  | SocketTimeout => settle (Rejected (Error "Request timed out")) st
  end.

(** The promise after a run of events; [None] while it is pending. *)
Definition fetch_outcome (evs : list net_event) : option settled :=
  promise (fold_left react evs opened).

End Fetcher.

(** The events that settle nothing: the response arriving, a chunk. *)
Definition is_quiet (ev : net_event) : bool :=
  match ev with
  | Response _ => true
  | Data _ => true
  | _ => false
  end.

(** A stand-in for [JSON.parse] that knows two texts. *)
Definition sample_parse (text : string) : option value :=
  if (text =? "{}")%string then Some (VObject [])
  else if (text =? "null")%string then Some VNull
  else None.

(** ** What the store may hold *)

Definition snapshot_or_null (c : value) : Prop :=
  c = VNull \/ exists iso raw, parseLeaderboard iso raw = Normal c.

(** A suspended call that, resumed, completes without a throw and leaves
    the store as it was or with a snapshot in it. *)
Definition keeps_snapshots (k : settled -> task value) : Prop :=
  forall h' o s' out',
    exists r s'' out'',
      advance h' (k o) s' out' = (Finished r, s'', out'')
      /\ (forall e, r <> Thrown e)
      /\ (s'' = s'
          \/ exists raw snap t,
              parseLeaderboard (isoNow h') raw = Normal snap
              /\ s'' = {| cache := snap; cacheTime := t |}).

(** The server between two turns: the cache is empty or holds a snapshot,
    every suspended call keeps it so, and no call has ended in a throw. *)
Definition sound (sv : server) : Prop :=
  snapshot_or_null (cache (mem sv))
  /\ Forall (fun ik => keeps_snapshots (snd ik)) (in_flight sv)
  /\ Forall (fun ir => forall e, snd ir <> Thrown e) (replies sv).

(** A refresh that cannot succeed: the fetch is rejected or the payload
    makes the normalizer throw. *)
Definition fails (h : host) (o : settled) : Prop :=
  (exists e, o = Rejected e)
  \/ (exists raw e,
         o = Resolved raw /\ parseLeaderboard (isoNow h) raw = Thrown e).

(** A feed whose event name cannot be converted to a string. *)
Definition unprintable_name_feed : value :=
  VObject
    [("events",
      VArray
        [VObject
           [("name", VObject [("toString", VNull)]);
            ("competitions",
             VArray
               [sample_competition "STATUS_IN_PROGRESS"
                  [VObject [("score", VString "-1");
                            ("athlete",
                             VObject [("displayName", VString "A")])]]])]])].
(** * Properties *)

Ltac split_bind H :=
  repeat match type of H with
  | context [bind ?c _] =>
      let E := fresh "E" in
      destruct c eqn:E; cbn [bind] in H; try discriminate H
  | context [if ?b then _ else _] =>
      let E := fresh "E" in
      destruct b eqn:E; try discriminate H
  end.

(** ** The cache manager *)

(** [call] on each path of [getLeaderboard]. *)
Lemma call_unfold h o s :
  call h o s =
  if fresh h s then served s
  else match o with
       | Rejected e => failed e s
       | Resolved raw =>
           match parseLeaderboard (isoNow h) raw with
           | Normal snap => refreshed h snap
           | Thrown e => failed e s
           | Inexact => {| returned := Some Inexact; after := s;
                           fetches := 1; console := [] |}
           end
       end.
Proof.
  unfold call, fresh, served, refreshed, failed, getLeaderboard.
  cbn [then_ perform run answer].
  destruct (is_fresh (cache s) (cacheTime s) (now h)); [reflexivity|].
  cbn [try_catch fetchESPN then_ run].
  destruct o as [raw|e]; cbn [try_catch then_ run answer perform app].
  2: { destruct (truthy (cache s)); reflexivity. }
  destruct (parseLeaderboard (isoNow h) raw) as [snap|e|];
    cbn [lift try_catch then_ run answer perform cache cacheTime app].
  2: { destruct (truthy (cache s)); reflexivity. }
  2: reflexivity.
  destruct (refreshed_summary snap) as [sm|e|];
    cbn [lift try_catch then_ run answer perform cache cacheTime app];
    try reflexivity.
  destruct (truthy snap); reflexivity.
Qed.

Lemma fresh_true h s :
  fresh h s = true <->
  truthy (cache s) = true /\ now h - cacheTime s < CACHE_TTL.
Proof.
  unfold fresh, is_fresh. rewrite andb_true_iff, Z.ltb_lt. reflexivity.
Qed.

Lemma fresh_false h s :
  fresh h s = false <->
  truthy (cache s) = false \/ CACHE_TTL <= now h - cacheTime s.
Proof.
  unfold fresh, is_fresh. rewrite andb_false_iff, Z.ltb_ge. reflexivity.
Qed.

(** A fetch is issued exactly when the cache is not fresh. *)
Lemma call_fetches h o s :
  fetches (call h o s) = if fresh h s then 0%nat else 1%nat.
Proof.
  rewrite call_unfold. destruct (fresh h s); [reflexivity|].
  destruct o as [raw|e]; [|reflexivity].
  destruct (parseLeaderboard (isoNow h) raw); try reflexivity.
  unfold refreshed. destruct (refreshed_summary a); reflexivity.
Qed.

(** Whatever the normalizer returns is an object. *)
Lemma parseLeaderboard_object iso raw snap :
  parseLeaderboard iso raw = Normal snap -> truthy snap = true.
Proof.
  unfold parseLeaderboard. intros H.
  split_bind H; inversion H; reflexivity.
Qed.




Lemma sample_feed_normalized :
  parseLeaderboard "2024-01-01T00:00:00.000Z" sample_feed
  = Normal sample_snapshot.
Proof. reflexivity. Qed.


(** C2: when the refresh fetch of a call fails and a snapshot is cached,
    the call returns that snapshot and leaves both [cache] and [cacheTime]
    as they were, so that a following call past the TTL issues a fetch. *)
Theorem getLeaderboard_stale_on_failure :
  forall h e s,
    truthy (cache s) = true ->
    fetches (call h (Rejected e) s) = 1%nat ->
    returned (call h (Rejected e) s) = Some (Normal (cache s))
    /\ after (call h (Rejected e) s) = s
    /\ (forall h' o',
           CACHE_TTL <= now h' - cacheTime s ->
           fetches (call h' o' (after (call h (Rejected e) s))) = 1%nat).
Proof.
  intros h e s Ht Hf.
  rewrite call_fetches in Hf.
  destruct (fresh h s) eqn:Hfr; [discriminate Hf|].
  rewrite call_unfold, Hfr. unfold failed. cbn [returned after].
  rewrite Ht. repeat split.
  intros h' o' Ha. rewrite call_fetches.
  assert (fresh h' s = false) as -> by (apply fresh_false; auto).
  reflexivity.
Qed.

Lemma getLeaderboard_stale_on_failure_witness :
  returned (call (at_time 70000) (Rejected (Error "Request timed out"))
              {| cache := sample_snapshot; cacheTime := 1000 |})
  = Some (Normal sample_snapshot).
Proof.
  apply (getLeaderboard_stale_on_failure (at_time 70000)
           (Error "Request timed out")
           {| cache := sample_snapshot; cacheTime := 1000 |});
    reflexivity.
Defined.

(** C3: when the refresh fetch fails and nothing is cached, the call
    returns [{status: 'error', message: e.message}] and stores nothing: the
    store is as it was, and the next call issues a fetch again. *)
Theorem getLeaderboard_error_not_cached :
  forall h e s,
    truthy (cache s) = false ->
    returned (call h (Rejected e) s)
    = Some (Normal (VObject [("status", VString "error");
                             ("message", VString (message e))]))
    /\ fetches (call h (Rejected e) s) = 1%nat
    /\ after (call h (Rejected e) s) = s
    /\ (forall h' o',
           fetches (call h' o' (after (call h (Rejected e) s))) = 1%nat).
Proof.
  intros h e s Ht.
  assert (forall h', fresh h' s = false) as Hfr
      by (intros h'; apply fresh_false; auto).
  rewrite call_unfold, Hfr. unfold failed. cbn [returned after fetches].
  rewrite Ht. repeat split.
  intros h' o'. rewrite call_fetches, Hfr. reflexivity.
Qed.

Lemma getLeaderboard_error_not_cached_witness :
  returned (call (at_time 1000) (Rejected (Error "Request timed out"))
              initial_store)
  = Some (Normal (VObject [("status", VString "error");
                           ("message", VString "Request timed out")])).
Proof.
  apply (getLeaderboard_error_not_cached (at_time 1000)
           (Error "Request timed out") initial_store).
  reflexivity.
Defined.

(** ** Overlapping calls *)

(** The first turn of a call: the cached value at once, or a fetch issued
    and the call suspended on it. *)
Lemma advance_getLeaderboard h s out :
  (fresh h s = true
   /\ advance h getLeaderboard s out = (Finished (Normal (cache s)), s, out))
  \/ (fresh h s = false
      /\ exists k,
          advance h getLeaderboard s out = (Suspended k, s, out)
          /\ completes (now h) k).
Proof.
  unfold fresh, getLeaderboard. cbn [then_ perform advance answer].
  destruct (is_fresh (cache s) (cacheTime s) (now h)).
  - left. split; reflexivity.
  - right. split; [reflexivity|].
    cbn [try_catch fetchESPN then_ advance]. eexists. split; [reflexivity|].
    intros h' o s' out'. cbn beta.
    destruct o as [raw|e]; cbn [try_catch then_ advance answer perform].
    2: { destruct (truthy (cache s')); cbn;
           do 3 eexists; (split; [reflexivity | intros ? ? E; discriminate E]). }
    destruct (parseLeaderboard (isoNow h') raw) as [snap|e|] eqn:P;
      cbn [lift try_catch then_ advance answer perform cache cacheTime].
    2: { destruct (truthy (cache s')); cbn;
           do 3 eexists;
           (split; [reflexivity
                   | intros ? ? E P0; injection E as <-; congruence]). }
    2: { do 3 eexists.
         split; [reflexivity
                | intros ? ? E P0; injection E as <-; congruence]. }
    assert (forall raw0 snap0 : value,
               Resolved raw = Resolved raw0 ->
               parseLeaderboard (isoNow h') raw0 = Normal snap0 ->
               {| cache := snap; cacheTime := now h |}
               = {| cache := snap0; cacheTime := now h |}) as Hstore.
    { intros raw0 snap0 E P0. injection E as <-. congruence. }
    destruct (refreshed_summary snap) as [sm|e|];
      cbn [lift try_catch then_ advance answer perform cache cacheTime].
    + do 3 eexists. split; [reflexivity | exact Hstore].
    + destruct (truthy snap); cbn;
        do 3 eexists; (split; [reflexivity | exact Hstore]).
    + do 3 eexists. split; [reflexivity | exact Hstore].
Qed.

Lemma step_arrives_idle sv id h :
  in_flight sv = [] ->
  in_flight (step sv (Arrives id h)) = []
  \/ exists k,
      in_flight (step sv (Arrives id h)) = [(id, k)]
      /\ completes (now h) k.
Proof.
  intros Hi. cbn [step]. unfold turn. rewrite Hi.
  destruct (advance_getLeaderboard h (mem sv) (printed sv))
    as [[_ ->] | [_ [k [-> Hk]]]].
  - left. reflexivity.
  - right. exists k. split; [reflexivity | exact Hk].
Qed.

Lemma turn_completes sv id h t0 k o rest :
  completes t0 k ->
  in_flight (turn id h (k o) sv rest) = rest
  /\ issued (turn id h (k o) sv rest) = issued sv
  /\ (forall raw snap,
         o = Resolved raw ->
         parseLeaderboard (isoNow h) raw = Normal snap ->
         mem (turn id h (k o) sv rest) = {| cache := snap; cacheTime := t0 |}).
Proof.
  intros Hk. unfold turn.
  destruct (Hk h o (mem sv) (printed sv)) as [r [s'' [out'' [-> Hs]]]].
  cbn. repeat split. exact Hs.
Qed.

Lemma step_settles_one sv id o h t0 k :
  in_flight sv = [(id, k)] ->
  completes t0 k ->
  in_flight (step sv (Settles id o h)) = [].
Proof.
  intros Hi Hk. cbn [step]. rewrite Hi. cbn [take]. rewrite Nat.eqb_refl.
  apply (turn_completes sv id h t0 k o [] Hk).
Qed.

Lemma step_settles_none sv id o h :
  in_flight sv = [] -> step sv (Settles id o h) = sv.
Proof. intros Hi. cbn [step]. rewrite Hi. reflexivity. Qed.

Lemma serial_at_most_one calls :
  forall n sv,
    in_flight sv = [] ->
    (List.length (in_flight (play (firstn n (serial calls)) sv)) <= 1)%nat.
Proof.
  induction calls as [|[[[id h] o] h'] rest IH]; intros n sv Hi.
  - cbn [serial flat_map]. rewrite firstn_nil. cbn. rewrite Hi. cbn. lia.
  - change (serial ((id, h, o, h') :: rest))
      with (Arrives id h :: Settles id o h' :: serial rest).
    destruct n as [|[|n]].
    + cbn. rewrite Hi. cbn. lia.
    + cbn [firstn play fold_left].
      destruct (step_arrives_idle sv id h Hi) as [-> | [k [-> _]]]; cbn; lia.
    + cbn [firstn play fold_left]. apply IH.
      destruct (step_arrives_idle sv id h Hi) as [H0 | [k [H1 Hk]]].
      * rewrite step_settles_none; assumption.
      * apply (step_settles_one _ _ _ _ (now h) k); assumption.
Qed.

Lemma step_arrives_stale sv id h :
  fresh h (mem sv) = false ->
  exists k,
    completes (now h) k
    /\ step sv (Arrives id h)
       = {| mem := mem sv; in_flight := (in_flight sv ++ [(id, k)])%list;
            replies := replies sv; issued := S (issued sv);
            printed := printed sv |}.
Proof.
  intros F. cbn [step]. unfold turn.
  destruct (advance_getLeaderboard h (mem sv) (printed sv))
    as [[E _] | [_ [k [-> Hk]]]]; [congruence|].
  exists k. split; [exact Hk | reflexivity].
Qed.

(** Two calls in flight, settling in one order or the other: the store
    ends with the snapshot and the start time of the call that settled
    last. *)
Lemma last_settled_wins id0 id1 h0 h1 h0' h1' raw0 raw1 snap0 snap1 s :
  id0 <> id1 ->
  fresh h0 s = false -> fresh h1 s = false ->
  parseLeaderboard (isoNow h0') raw0 = Normal snap0 ->
  parseLeaderboard (isoNow h1') raw1 = Normal snap1 ->
  mem (play [Arrives id0 h0; Arrives id1 h1;
             Settles id1 (Resolved raw1) h1'; Settles id0 (Resolved raw0) h0']
         (boot s))
  = {| cache := snap0; cacheTime := now h0 |}
  /\ mem (play [Arrives id0 h0; Arrives id1 h1;
                Settles id0 (Resolved raw0) h0'; Settles id1 (Resolved raw1) h1']
            (boot s))
     = {| cache := snap1; cacheTime := now h1 |}.
Proof.
  intros Hid F0 F1 P0 P1.
  apply Nat.eqb_neq in Hid.
  cbn [play fold_left].
  destruct (step_arrives_stale (boot s) id0 h0 F0) as [k0 [K0 ->]].
  destruct (step_arrives_stale
              {| mem := mem (boot s);
                 in_flight := (in_flight (boot s) ++ [(id0, k0)])%list;
                 replies := replies (boot s);
                 issued := S (issued (boot s));
                 printed := printed (boot s) |} id1 h1 F1) as [k1 [K1 ->]].
  cbn [boot mem in_flight replies issued printed app].
  split.
  - cbn [step in_flight take]. rewrite Hid, Nat.eqb_refl.
    match goal with
    | |- context [turn id1 h1' (k1 ?o) ?sv ?rest] =>
        destruct (turn_completes sv id1 h1' (now h1) k1 o rest K1)
          as [I1 _];
        set (sv1 := turn id1 h1' (k1 o) sv rest) in *
    end.
    rewrite I1. cbn [take]. rewrite Nat.eqb_refl.
    destruct (turn_completes sv1 id0 h0' (now h0) k0 (Resolved raw0) [] K0)
      as [_ [_ M]].
    exact (M raw0 snap0 eq_refl P0).
  - cbn [step in_flight take]. rewrite Nat.eqb_refl.
    match goal with
    | |- context [turn id0 h0' (k0 ?o) ?sv ?rest] =>
        destruct (turn_completes sv id0 h0' (now h0) k0 o rest K0)
          as [I0 _];
        set (sv0 := turn id0 h0' (k0 o) sv rest) in *
    end.
    rewrite I0. cbn [take]. rewrite Nat.eqb_refl.
    destruct (turn_completes sv0 id1 h1' (now h1) k1 (Resolved raw1) [] K1)
      as [_ [_ M]].
    exact (M raw1 snap1 eq_refl P1).
Qed.

(** C5, as stated, fails: nothing in [getLeaderboard] records that a
    refresh is under way.  Two calls arriving one after the other on an
    empty cache, the second before the first's fetch has settled, leave two
    fetches in flight. *)
Lemma overlapping_calls_fetch_twice :
  ~ (forall (evs : list event) (s : store),
       (List.length (in_flight (play evs (boot s))) <= 1)%nat).
Proof.
  intros H.
  specialize (H [Arrives 0%nat (at_time 1000); Arrives 1%nat (at_time 1001)]
                initial_store).
  cbn in H. lia.
Qed.

(** C5 (amended): calls that do not overlap never have more than one fetch
    in flight; a call that starts while another's fetch is in flight and
    that also finds the cache empty or expired issues a fetch of its own,
    so that two are in flight, the store untouched until one settles; when
    both then succeed, the one that settles last leaves its snapshot and
    its own start time in the store. *)
Theorem getLeaderboard_no_refresh_guard :
  (forall calls n s,
      (List.length (in_flight (play (firstn n (serial calls)) (boot s))) <= 1)%nat)
  /\ (forall id0 id1 h0 h1 s,
         fresh h0 s = false -> fresh h1 s = false ->
         List.length (in_flight (play [Arrives id0 h0; Arrives id1 h1] (boot s)))
         = 2%nat
         /\ issued (play [Arrives id0 h0; Arrives id1 h1] (boot s)) = 2%nat
         /\ mem (play [Arrives id0 h0; Arrives id1 h1] (boot s)) = s)
  /\ (forall id0 id1 h0 h1 h0' h1' raw0 raw1 snap0 snap1 s,
         id0 <> id1 ->
         fresh h0 s = false -> fresh h1 s = false ->
         parseLeaderboard (isoNow h0') raw0 = Normal snap0 ->
         parseLeaderboard (isoNow h1') raw1 = Normal snap1 ->
         mem (play [Arrives id0 h0; Arrives id1 h1;
                    Settles id1 (Resolved raw1) h1';
                    Settles id0 (Resolved raw0) h0'] (boot s))
         = {| cache := snap0; cacheTime := now h0 |}
         /\ mem (play [Arrives id0 h0; Arrives id1 h1;
                       Settles id0 (Resolved raw0) h0';
                       Settles id1 (Resolved raw1) h1'] (boot s))
            = {| cache := snap1; cacheTime := now h1 |}).
Proof.
  split; [|split].
  - intros calls n s. apply serial_at_most_one. reflexivity.
  - intros id0 id1 h0 h1 s F0 F1.
    cbn [play fold_left].
    destruct (step_arrives_stale (boot s) id0 h0 F0) as [k0 [_ ->]].
    destruct (step_arrives_stale
                {| mem := mem (boot s);
                   in_flight := (in_flight (boot s) ++ [(id0, k0)])%list;
                   replies := replies (boot s);
                   issued := S (issued (boot s));
                   printed := printed (boot s) |} id1 h1 F1) as [k1 [_ ->]].
    cbn. repeat split.
  - exact last_settled_wins.
Qed.

Lemma getLeaderboard_no_refresh_guard_witness :
  List.length (in_flight (play [Arrives 0%nat (at_time 1000);
                                Arrives 1%nat (at_time 1001)]
                            (boot initial_store))) = 2%nat
  /\ mem (play [Arrives 0%nat (at_time 1000); Arrives 1%nat (at_time 1001);
                Settles 1%nat (Resolved sample_feed) (at_time 1500);
                Settles 0%nat (Resolved finished_feed) (at_time 1600)]
            (boot initial_store))
     = {| cache :=
            VObject
              [("status", VString "ok");
               ("tournament", VString "PGA Tour Event");
               ("round", VString "Round 2");
               ("roundStatus", VString "Thru 9");
               ("players",
                VArray
                  [VObject [("name", VString "A"); ("score", VString "+5");
                            ("thru", VString "F");
                            ("position", VString "1")]]);
               ("fetchedAt", VString "2024-01-01T00:00:00.000Z")];
          cacheTime := 1000 |}.
Proof.
  destruct getLeaderboard_no_refresh_guard as [_ [B C]].
  split.
  - apply (B 0%nat 1%nat (at_time 1000) (at_time 1001) initial_store);
      reflexivity.
  - apply (C 0%nat 1%nat (at_time 1000) (at_time 1001) (at_time 1600)
             (at_time 1500) finished_feed sample_feed _ sample_snapshot
             initial_store);
      [discriminate | reflexivity ..].
Defined.

(** ** The HTTP front door *)

(** String conversion is always decided: it returns or throws. *)
Lemma to_string_exact : forall v, to_string v <> Inexact.
Proof.
  fix IH 1. intros v. destruct v as [| |b|n|s|items|props]; cbn [to_string];
    try discriminate.
  - destruct b; discriminate.
  - induction items as [|x rest IHr]; [discriminate|].
    assert (match x with
            | VUndefined => Normal ""
            | VNull => Normal ""
            | _ => to_string x
            end <> Inexact) as Hx.
    { specialize (IH x). destruct x; try discriminate; exact IH. }
    destruct (match x with
              | VUndefined => Normal ""
              | VNull => Normal ""
              | _ => to_string x
              end) as [sx|e|]; cbn [bind]; try discriminate; try congruence.
    destruct rest as [|y rest']; [discriminate|].
    destruct ((fix join (l : list value) : completion string :=
                 match l with
                 | [] => Normal ""
                 | x0 :: rest0 =>
                     sx0 <- match x0 with
                            | VUndefined => Normal ""
                            | VNull => Normal ""
                            | _ => to_string x0
                            end ;;
                     match rest0 with
                     | [] => Normal sx0
                     | _ :: _ => sr <- join rest0 ;; Normal (sx0 ++ "," ++ sr)%string
                     end
                 end) (y :: rest')) as [sr|e|]; cbn [bind];
      try discriminate; try congruence.
  - destruct (lookup "toString" props); discriminate.
Qed.

Lemma get_exact v name : get v name <> Inexact.
Proof. destruct v; discriminate. Qed.

Lemma refreshed_summary_exact c : refreshed_summary c <> Inexact.
Proof.
  unfold refreshed_summary. intros H.
  split_bind H;
    repeat match goal with
    | E : get _ _ = Inexact |- _ => exact (get_exact _ _ E)
    | E : to_string _ = Inexact |- _ => exact (to_string_exact _ E)
    end.
Qed.

(** A retrieval never throws: whatever goes wrong during the refresh is
    caught inside [getLeaderboard]. *)
Lemma call_returns h o s :
  (exists d, returned (call h o s) = Some (Normal d))
  \/ (exists raw,
         o = Resolved raw /\ fresh h s = false
         /\ parseLeaderboard (isoNow h) raw = Inexact
         /\ returned (call h o s) = Some Inexact).
Proof.
  rewrite call_unfold. destruct (fresh h s) eqn:F.
  - left. eexists. reflexivity.
  - destruct o as [raw|e].
    + destruct (parseLeaderboard (isoNow h) raw) as [snap|e|] eqn:P.
      * left. unfold refreshed.
        destruct (refreshed_summary snap) eqn:R;
          [eexists; reflexivity | eexists; reflexivity |].
        exfalso. exact (refreshed_summary_exact _ R).
      * left. eexists. reflexivity.
      * right. exists raw. repeat split; auto.
    + left. eexists. reflexivity.
Qed.

(** Running [try { x = await t; return f(x) } catch (e) { return g(e) }]. *)
Lemma run_try_map {A B : Type} (f : A -> B) (g : exn -> B) h (t : task A) :
  forall os s n out,
    run h (try_catch (x <~ t ;; Return (f x)) (fun e => Return (g e)))
      os s n out
    = let r := run h t os s n out in
      {| returned := option_map
                       (fun c => match c with
                                 | Normal a => Normal (f a)
                                 | Thrown e => Normal (g e)
                                 | Inexact => Inexact
                                 end) (returned r);
         after := after r; fetches := fetches r; console := console r |}.
Proof.
  induction t as [a|e| |X a k IH|k IH]; intros os s n out;
    cbn [then_ try_catch run]; try reflexivity.
  - destruct (answer a h s out) as [[x s'] out']. apply IH.
  - destruct os as [|o os']; [reflexivity | apply IH].
Qed.

Lemma serve_leaderboard req h o s :
  method req <> "OPTIONS" ->
  url req = "/" \/ url req = "/leaderboard" ->
  serve req h o s
  = {| returned := option_map
                     (fun c => match c with
                               | Normal d => Normal (respond 200 (Json d))
                               | Thrown e =>
                                   Normal (respond 500 (Json (error_value e)))
                               | Inexact => Inexact
                               end) (returned (call h o s));
       after := after (call h o s);
       fetches := fetches (call h o s);
       console := console (call h o s) |}.
Proof.
  intros Hm Hu. unfold serve, handler, call.
  apply String.eqb_neq in Hm. rewrite Hm.
  assert (((url req =? "/leaderboard") || (url req =? "/"))%string = true) as ->.
  { destruct Hu as [-> | ->]; reflexivity. }
  apply (run_try_map (fun d => respond 200 (Json d))
           (fun e => respond 500 (Json (error_value e)))).
Qed.

(** C10, as stated, fails: [/health] differs from [/] and from
    [/leaderboard] and is answered with 200. *)
Lemma health_is_not_404 :
  ~ (forall (req : request) (h : host) (o : settled) (s : store),
       method req <> "OPTIONS" ->
       url req <> "/" -> url req <> "/leaderboard" ->
       returned (serve req h o s) = Some (Normal not_found)).
Proof.
  intros H.
  specialize (H {| method := "GET"; url := "/health" |} (at_time 1000)
                (Resolved sample_feed) initial_store).
  cbn in H.
  assert (Some (Normal (respond 200
            (Json (VObject [("ok", VBool true); ("uptime", VNumber 1)]))))
          = Some (Normal not_found)) as E.
  { apply H; discriminate. }
  discriminate E.
Qed.

(** C10 (amended): routing compares the whole URL string and, past the
    OPTIONS branch, does not look at the method.  [OPTIONS] gets 204 with
    no body; otherwise [/] and [/leaderboard] get 200 with what
    [getLeaderboard] returns, [/health] gets 200 with the health body, and
    every other URL, such as [/leaderboard?x=1], gets 404 with
    [{"error": "Not found"}] and causes no fetch. *)
Theorem handler_routing :
  forall req h o s,
    (method req = "OPTIONS" ->
     returned (serve req h o s) = Some (Normal (respond 204 NoBody)))
    /\ (method req <> "OPTIONS" ->
        (url req = "/" \/ url req = "/leaderboard" ->
         (exists d,
             returned (call h o s) = Some (Normal d)
             /\ returned (serve req h o s)
                = Some (Normal (respond 200 (Json d))))
         \/ (exists raw,
                o = Resolved raw /\ fresh h s = false
                /\ parseLeaderboard (isoNow h) raw = Inexact
                /\ returned (serve req h o s) = Some Inexact))
        /\ (url req = "/health" ->
            returned (serve req h o s)
            = Some (Normal (respond 200
                  (Json (VObject [("ok", VBool true);
                                  ("uptime", uptime h)]))))
            /\ fetches (serve req h o s) = 0%nat)
        /\ (url req <> "/" -> url req <> "/leaderboard" ->
            url req <> "/health" ->
            returned (serve req h o s) = Some (Normal not_found)
            /\ fetches (serve req h o s) = 0%nat
            /\ after (serve req h o s) = s)).
Proof.
  intros req h o s. split.
  - intros Hm. unfold serve, handler. rewrite Hm. reflexivity.
  - intros Hm. split; [|split].
    + intros Hu. rewrite (serve_leaderboard req h o s Hm Hu).
      cbn [returned].
      destruct (call_returns h o s) as [[d Hd] | [raw [Ho [F [P Hr]]]]].
      * left. exists d. rewrite Hd. split; reflexivity.
      * right. exists raw. rewrite Hr. repeat split; assumption.
    + intros Hu. unfold serve, handler.
      apply String.eqb_neq in Hm. rewrite Hm, Hu. split; reflexivity.
    + intros H1 H2 H3. unfold serve, handler.
      apply String.eqb_neq in Hm, H1, H2, H3.
      rewrite Hm, H1, H2, H3. repeat split.
Qed.

Lemma handler_routing_witness :
  returned (serve {| method := "POST"; url := "/leaderboard?x=1" |}
              (at_time 1000) (Resolved sample_feed) initial_store)
  = Some (Normal not_found)
  /\ returned (serve {| method := "POST"; url := "/health" |}
                 (at_time 1000) (Resolved sample_feed) initial_store)
     = Some (Normal (respond 200
           (Json (VObject [("ok", VBool true); ("uptime", VNumber 1)]))))
  /\ returned (serve {| method := "OPTIONS"; url := "/nowhere" |}
                 (at_time 1000) (Resolved sample_feed) initial_store)
     = Some (Normal (respond 204 NoBody)).
Proof.
  split; [|split].
  - apply (handler_routing {| method := "POST"; url := "/leaderboard?x=1" |}
             (at_time 1000) (Resolved sample_feed) initial_store);
      discriminate.
  - apply (handler_routing {| method := "POST"; url := "/health" |}
             (at_time 1000) (Resolved sample_feed) initial_store);
      [discriminate | reflexivity].
  - apply (handler_routing {| method := "OPTIONS"; url := "/nowhere" |}
             (at_time 1000) (Resolved sample_feed) initial_store).
    reflexivity.
Defined.

(** ** Numbers and their strings *)













(** ** Players *)

Lemma is_string_true v lit : is_string v lit = true <-> v = VString lit.
Proof.
  split.
  - destruct v; cbn; try discriminate. intros H.
    apply String.eqb_eq in H. subst. reflexivity.
  - intros ->. cbn. apply String.eqb_refl.
Qed.


(** What [map] returns: result [i] is the callback's on element [i]. *)
Lemma map_from_nth (f : value -> nat -> completion value) l :
  forall idx mapped,
    map_from f idx l = Normal mapped ->
    List.length mapped = List.length l
    /\ forall i c,
        nth_error l i = Some c ->
        exists y, f c (idx + i)%nat = Normal y /\ nth_error mapped i = Some y.
Proof.
  induction l as [|x rest IH]; intros idx mapped H; cbn [map_from] in H.
  - injection H as <-. split; [reflexivity|].
    intros i c Hi. destruct i; discriminate Hi.
  - destruct (f x idx) as [y| |] eqn:Hy; cbn [bind] in H; try discriminate H.
    destruct (map_from f (S idx) rest) as [ys| |] eqn:Hys; cbn [bind] in H;
      try discriminate H.
    injection H as <-. destruct (IH _ _ Hys) as [Hlen Hnth].
    split; [cbn [List.length]; congruence|].
    intros [|i] c Hi; cbn [nth_error] in *.
    + injection Hi as <-. exists y. rewrite Nat.add_0_r. auto.
    + destruct (Hnth i c Hi) as [y' [Hf Hn]]. exists y'.
      split; [|exact Hn]. rewrite <- Hf. f_equal. lia.
Qed.

(** The four fields of an entry are the callback's four computations. *)
Lemma player_parts fin c idx pl :
  player fin c idx = Normal pl ->
  exists nm sc th pos,
    player_score c = Normal sc
    /\ player_position c idx = Normal pos
    /\ player_thru fin c = Normal th
    /\ player_name c = Normal nm
    /\ pl = VObject [("name", nm); ("score", VString sc);
                     ("thru", VString th); ("position", VString pos)].
Proof.
  unfold player. intros H.
  destruct (player_score c) as [sc| |]; cbn [bind] in H; try discriminate H.
  destruct (player_position c idx) as [pos| |]; cbn [bind] in H;
    try discriminate H.
  destruct (player_thru fin c) as [th| |]; cbn [bind] in H;
    try discriminate H.
  destruct (player_name c) as [nm| |]; cbn [bind] in H; try discriminate H.
  injection H as <-. exists nm, sc, th, pos. repeat split.
Qed.

(** A snapshot with players comes from a competition whose status name is
    one of the four, and its players are the named ones among the entries
    the callback built from the competitors. *)
Lemma snapshot_entries iso p ev e compet name cs snap players :
  get p "events" = Normal ev ->
  active_event (js_or ev (VArray [])) = Normal e ->
  primary_competition e = Normal compet ->
  status_name compet = Normal name ->
  get compet "competitors" = Normal (VArray cs) ->
  parseLeaderboard iso p = Normal snap ->
  get snap "players" = Normal (VArray players) ->
  includes validStatuses name = true
  /\ exists mapped,
      map_from (player (is_finished name)) 0 cs = Normal mapped
      /\ players = filter has_name mapped.
Proof.
  intros Hev Ha Hc Hn Hcs Hp Hpl.
  unfold parseLeaderboard in Hp. rewrite Hev in Hp. cbn [bind] in Hp.
  rewrite Ha in Hp. cbn [bind] in Hp.
  destruct (negb (truthy e)).
  { injection Hp as <-. discriminate Hpl. }
  rewrite Hc in Hp. cbn [bind] in Hp.
  destruct (negb (truthy compet)).
  { injection Hp as <-. discriminate Hpl. }
  rewrite Hn in Hp. cbn [bind] in Hp.
  destruct (includes validStatuses name) eqn:Hv; cbn [negb] in Hp.
  2: { injection Hp as <-. discriminate Hpl. }
  destruct (round_number compet) as [rn| |]; cbn [bind] in Hp;
    try discriminate Hp.
  destruct (status_detail compet) as [sd| |]; cbn [bind] in Hp;
    try discriminate Hp.
  rewrite Hcs in Hp. cbn [bind js_or truthy array_map] in Hp.
  destruct (map_from (player (is_finished name)) 0 cs) as [mapped| |] eqn:Hm;
    cbn [bind] in Hp; try discriminate Hp.
  destruct (List.length (filter has_name mapped) =? 0)%nat.
  { injection Hp as <-. discriminate Hpl. }
  destruct (get e "name") as [nm| |]; cbn [bind] in Hp; try discriminate Hp.
  destruct (to_string rn) as [r| |]; cbn [bind] in Hp; try discriminate Hp.
  injection Hp as <-. cbn in Hpl. injection Hpl as <-.
  split; [reflexivity|]. exists mapped. split; reflexivity.
Qed.

(** Entry [i] of the mapped list, field by field, for competitor [i]. *)
Lemma snapshot_entry_parts iso p ev e compet name cs snap players :
  get p "events" = Normal ev ->
  active_event (js_or ev (VArray [])) = Normal e ->
  primary_competition e = Normal compet ->
  status_name compet = Normal name ->
  get compet "competitors" = Normal (VArray cs) ->
  parseLeaderboard iso p = Normal snap ->
  get snap "players" = Normal (VArray players) ->
  includes validStatuses name = true
  /\ exists mapped,
      List.length mapped = List.length cs
      /\ players = filter has_name mapped
      /\ forall i c,
          nth_error cs i = Some c ->
          exists nm sc th pos,
            nth_error mapped i
            = Some (VObject [("name", nm); ("score", VString sc);
                             ("thru", VString th); ("position", VString pos)])
            /\ player_score c = Normal sc
            /\ player_position c i = Normal pos
            /\ player_thru (is_finished name) c = Normal th
            /\ player_name c = Normal nm.
Proof.
  intros Hev Ha Hc Hn Hcs Hp Hpl.
  destruct (snapshot_entries _ _ _ _ _ _ _ _ _ Hev Ha Hc Hn Hcs Hp Hpl)
    as [Hv [mapped [Hm Hf]]].
  split; [exact Hv|]. exists mapped.
  destruct (map_from_nth _ _ _ _ Hm) as [Hlen Hnth].
  split; [exact Hlen|]. split; [exact Hf|].
  intros i c Hi. destruct (Hnth i c Hi) as [pl [Hpl' Hmi]].
  cbn [Nat.add] in Hpl'.
  destruct (player_parts _ _ _ _ Hpl') as [nm [sc [th [pos [A [B [C [D ->]]]]]]]].
  exists nm, sc, th, pos. repeat split; assumption.
Qed.






(** C6, as stated, fails: a score that is an object with a [toString]
    property of its own is not numeric, yet the callback gives it no [E]:
    converting it to a string throws, and no entry is built. *)
Lemma object_score_is_not_formatted :
  ~ (forall (fin : bool) (c : value) (idx : nat)
            (props : list (string * value)),
       get c "score" = Normal (VObject props) ->
       exists pl,
         player fin c idx = Normal pl
         /\ get pl "score" = Normal (VString "E")).
Proof.
  intros H.
  destruct (H false object_score_competitor 0%nat [("toString", VNull)]
              eq_refl) as [pl [Hpl _]].
  assert (player false object_score_competitor 0
          = Thrown (TypeError "Cannot convert object to primitive value"))
    as E by reflexivity.
  rewrite E in Hpl. discriminate Hpl.
Qed.



(** Lower-casing maps exactly the two cases of a letter to it. *)
Lemma lower_char_letter a :
  Ascii.eqb (lower_char a) "c" = same_letter "c" "C" a
  /\ Ascii.eqb (lower_char a) "u" = same_letter "u" "U" a
  /\ Ascii.eqb (lower_char a) "t" = same_letter "t" "T" a
  /\ Ascii.eqb (lower_char a) "w" = same_letter "w" "W" a
  /\ Ascii.eqb (lower_char a) "d" = same_letter "d" "D" a.
Proof.
  destruct a as [[] [] [] [] [] [] [] []]; vm_compute; repeat split.
Qed.

Lemma lower_string_cut s : (lower_string s =? "cut")%string = is_cut s.
Proof.
  destruct s as [|a [|b [|c [|d r]]]]; try reflexivity.
  - cbn. destruct (Ascii.eqb (lower_char a) "c"); reflexivity.
  - cbn. destruct (Ascii.eqb (lower_char a) "c"); [|reflexivity].
    destruct (Ascii.eqb (lower_char b) "u"); reflexivity.
  - cbn [lower_string String.eqb is_cut].
    destruct (lower_char_letter a) as [-> _].
    destruct (lower_char_letter b) as [_ [-> _]].
    destruct (lower_char_letter c) as [_ [_ [-> _]]].
    destruct (same_letter "c" "C" a), (same_letter "u" "U" b),
      (same_letter "t" "T" c); reflexivity.
  - cbn [lower_string String.eqb is_cut].
    destruct (Ascii.eqb (lower_char a) "c"); [|reflexivity].
    destruct (Ascii.eqb (lower_char b) "u"); [|reflexivity].
    destruct (Ascii.eqb (lower_char c) "t"); reflexivity.
Qed.

Lemma lower_string_wd s : (lower_string s =? "wd")%string = is_wd s.
Proof.
  destruct s as [|a [|b [|c r]]]; try reflexivity.
  - cbn. destruct (Ascii.eqb (lower_char a) "w"); reflexivity.
  - cbn [lower_string String.eqb is_wd].
    destruct (lower_char_letter a) as [_ [_ [_ [-> _]]]].
    destruct (lower_char_letter b) as [_ [_ [_ [_ ->]]]].
    destruct (same_letter "w" "W" a), (same_letter "d" "D" b); reflexivity.
  - cbn [lower_string String.eqb is_wd].
    destruct (Ascii.eqb (lower_char a) "w"); [|reflexivity].
    destruct (Ascii.eqb (lower_char b) "d"); reflexivity.
Qed.

Lemma is_cut_not_wd s : is_cut s = true -> is_wd s = false.
Proof. destruct s as [|a [|b [|c r]]]; cbn; congruence. Qed.

(** The position once the status is known to be a string or falsy. *)
Lemma player_position_unfold c idx st s :
  get c "status" = Normal st ->
  js_or st (VString "") = VString s ->
  player_position c idx
  = if is_cut s then Normal "MC"
    else if is_wd s then Normal "WD"
    else so <- get c "sortOrder" ;;
         if truthy so then to_string so
         else Normal (number_to_string (Z.of_nat idx + 1)).
Proof.
  intros Hg Hs. unfold player_position. rewrite Hg. cbn [bind].
  rewrite Hs. cbn [toLowerCase bind].
  rewrite lower_string_cut, lower_string_wd. reflexivity.
Qed.

(** The position by cases on the status and the sort order. *)
Lemma player_position_cases :
  forall c idx st,
    get c "status" = Normal st ->
    (forall s,
        st = VString s ->
        (is_cut s = true -> player_position c idx = Normal "MC")
        /\ (is_wd s = true -> player_position c idx = Normal "WD"))
    /\ (forall so,
           truthy st = false
           \/ (exists s, st = VString s /\ is_cut s = false /\ is_wd s = false) ->
           get c "sortOrder" = Normal so ->
           (truthy so = true -> player_position c idx = to_string so)
           /\ (truthy so = false ->
               player_position c idx
               = Normal (number_to_string (Z.of_nat idx + 1)))).
Proof.
  intros c idx st Hg. split.
  - intros s ->.
    assert (forall t, is_cut t = true \/ is_wd t = true ->
                      js_or (VString t) (VString "") = VString t) as Hor.
    { intros t Ht. unfold js_or. cbn [truthy].
      destruct t; [destruct Ht; discriminate | reflexivity]. }
    split; intros Hs.
    + rewrite (player_position_unfold c idx (VString s) s Hg) by auto.
      rewrite Hs. reflexivity.
    + rewrite (player_position_unfold c idx (VString s) s Hg) by auto.
      rewrite Hs.
      destruct (is_cut s) eqn:Hc; [|reflexivity].
      rewrite (is_cut_not_wd s Hc) in Hs. discriminate Hs.
  - intros so Hst Hso.
    assert (exists s, js_or st (VString "") = VString s
                      /\ is_cut s = false /\ is_wd s = false)
      as [s [Hs [Hc Hw]]].
    { destruct Hst as [Hf | [s [-> [Hc Hw]]]].
      - exists ""%string. unfold js_or. rewrite Hf. repeat split.
      - exists s. unfold js_or. cbn [truthy].
        destruct s; cbn; repeat split; assumption. }
    rewrite (player_position_unfold c idx st s Hg Hs), Hc, Hw, Hso.
    cbn [bind]. split; intros ->; reflexivity.
Qed.

(** A position was computed only if the status is falsy or a string. *)
Lemma player_position_status c idx pos :
  player_position c idx = Normal pos ->
  exists st so,
    get c "status" = Normal st
    /\ get c "sortOrder" = Normal so
    /\ (truthy st = false \/ exists s, st = VString s).
Proof.
  unfold player_position. intros H.
  destruct (get c "status") as [st| |] eqn:Hst; cbn [bind] in H;
    try discriminate H.
  assert (exists so, get c "sortOrder" = Normal so) as [so Hso].
  { destruct c; try discriminate Hst; cbn [get]; eauto. }
  exists st, so. split; [reflexivity|]. split; [exact Hso|].
  unfold js_or in H. destruct (truthy st) eqn:Ht; [|left; reflexivity].
  right. destruct st; try discriminate H. eauto.
Qed.

(** C7, as stated, fails: a sort order of 0 is present, yet the position in
    the entry the callback builds is the index plus one. *)
Lemma sort_order_zero_is_skipped :
  ~ (forall (fin : bool) (c : value) (idx : nat) (so pl : value),
       get c "status" = Normal VUndefined ->
       get c "sortOrder" = Normal so ->
       so <> VUndefined ->
       player fin c idx = Normal pl ->
       exists s,
         to_string so = Normal s
         /\ get pl "position" = Normal (VString s)).
Proof.
  intros H.
  assert (VNumber 0 <> VUndefined) as N by discriminate.
  destruct (H false (named "D" [("sortOrder", VNumber 0)]) 3%nat (VNumber 0)
              (entry "D" "E" "--" "4") eq_refl eq_refl N eq_refl)
    as [s [Hs Hpos]].
  cbn in Hs. injection Hs as <-. discriminate Hpos.
Qed.

(** C7 (amended): in a snapshot with players, entry [i] of the mapped list,
    of which the players are the named ones, carries the position of
    competitor [i] of the active competition, whose status is falsy or a
    string: [MC] when the status is [cut] in any case of its letters and
    [WD] when it is [wd], whatever the sort order; otherwise the sort order
    as a string when the sort order is truthy (every number in it at most
    [2^53] in magnitude), and the index plus one when it is absent or falsy
    ([null], [0], the empty string, [false]). *)
Theorem player_position_rules :
  forall iso p ev e compet name cs snap players,
    get p "events" = Normal ev ->
    active_event (js_or ev (VArray [])) = Normal e ->
    primary_competition e = Normal compet ->
    status_name compet = Normal name ->
    get compet "competitors" = Normal (VArray cs) ->
    parseLeaderboard iso p = Normal snap ->
    get snap "players" = Normal (VArray players) ->
    exists mapped,
      List.length mapped = List.length cs
      /\ players = filter has_name mapped
      /\ forall i c,
          nth_error cs i = Some c ->
          exists st so pl pos,
            get c "status" = Normal st
            /\ get c "sortOrder" = Normal so
            /\ nth_error mapped i = Some pl
            /\ get pl "position" = Normal (VString pos)
            /\ (truthy st = false \/ exists s, st = VString s)
            /\ (forall s,
                   st = VString s ->
                   (is_cut s = true -> pos = "MC"%string)
                   /\ (is_wd s = true -> pos = "WD"%string))
            /\ (truthy st = false
                \/ (exists s,
                       st = VString s /\ is_cut s = false /\ is_wd s = false) ->
                (truthy so = true -> in_range so = true ->
                 to_string so = Normal pos)
                /\ (truthy so = false ->
                    pos = number_to_string (Z.of_nat i + 1))).
Proof.
  intros iso p ev e compet name cs snap players Hev Ha Hc Hn Hcs Hp Hpl.
  destruct (snapshot_entry_parts _ _ _ _ _ _ _ _ _ Hev Ha Hc Hn Hcs Hp Hpl)
    as [_ [mapped [Hlen [Hf Hall]]]].
  exists mapped. split; [exact Hlen|]. split; [exact Hf|].
  intros i c Hi.
  destruct (Hall i c Hi) as [nm [sc [th [pos [Hmi [_ [Hpos _]]]]]]].
  destruct (player_position_status c i pos Hpos) as [st [so [Hst [Hso Hcase]]]].
  destruct (player_position_cases c i st Hst) as [Hover Helse].
  assert (forall t, player_position c i = Normal t -> pos = t) as Heq.
  { intros t Ht. rewrite Ht in Hpos. injection Hpos as <-. reflexivity. }
  eexists st, so, _, pos. split; [exact Hst|]. split; [exact Hso|].
  split; [exact Hmi|]. split; [reflexivity|]. split; [exact Hcase|].
  split.
  - intros s Hs. destruct (Hover s Hs) as [Hcut Hwd].
    split; intros Ht; apply Heq; auto.
  - intros Hno. destruct (Helse so Hno Hso) as [Htrue Hfalse]. split.
    + intros Ht _. rewrite <- (Htrue Ht). exact Hpos.
    + intros Ht. apply Heq, Hfalse, Ht.
Qed.

Lemma player_position_rules_witness :
  exists mapped,
    filter has_name mapped
    = [entry "A" "E" "--" "MC"; entry "B" "E" "--" "WD";
       entry "C" "E" "--" "7"; entry "D" "E" "--" "4"]
    /\ (exists pl, nth_error mapped 0 = Some pl
                   /\ get pl "position" = Normal (VString "MC"))
    /\ (exists pl, nth_error mapped 1 = Some pl
                   /\ get pl "position" = Normal (VString "WD"))
    /\ (exists pl, nth_error mapped 2 = Some pl
                   /\ get pl "position" = Normal (VString "7"))
    /\ (exists pl, nth_error mapped 3 = Some pl
                   /\ get pl "position" = Normal (VString "4")).
Proof.
  destruct (player_position_rules
              "" (feed_of "STATUS_IN_PROGRESS" positioned_competitors)
              _ _ _ _ positioned_competitors _
              [entry "A" "E" "--" "MC"; entry "B" "E" "--" "WD";
               entry "C" "E" "--" "7"; entry "D" "E" "--" "4"]
              eq_refl eq_refl eq_refl eq_refl eq_refl eq_refl eq_refl)
    as [mapped [_ [Hf Hall]]].
  exists mapped. split; [symmetry; exact Hf|].
  split; [|split; [|split]].
  - destruct (Hall 0%nat _ eq_refl)
      as [st [so [pl [pos [Hst [Hso [Hm [Hp [_ [Hover _]]]]]]]]]].
    injection Hst as <-.
    destruct (Hover "CuT"%string eq_refl) as [Hcut _].
    exists pl. split; [exact Hm|]. rewrite Hp, (Hcut eq_refl). reflexivity.
  - destruct (Hall 1%nat _ eq_refl)
      as [st [so [pl [pos [Hst [Hso [Hm [Hp [_ [Hover _]]]]]]]]]].
    injection Hst as <-.
    destruct (Hover "wD"%string eq_refl) as [_ Hwd].
    exists pl. split; [exact Hm|]. rewrite Hp, (Hwd eq_refl). reflexivity.
  - destruct (Hall 2%nat _ eq_refl)
      as [st [so [pl [pos [Hst [Hso [Hm [Hp [_ [_ Helse]]]]]]]]]].
    injection Hst as <-. injection Hso as <-.
    destruct (Helse (or_introl eq_refl)) as [Htrue _].
    pose proof (Htrue eq_refl eq_refl) as Hpos. injection Hpos as <-.
    exists pl. split; [exact Hm | exact Hp].
  - destruct (Hall 3%nat _ eq_refl)
      as [st [so [pl [pos [Hst [Hso [Hm [Hp [_ [_ Helse]]]]]]]]]].
    injection Hst as <-. injection Hso as <-.
    destruct (Helse (or_introl eq_refl)) as [_ Hfalse].
    exists pl. split; [exact Hm|]. rewrite Hp, (Hfalse eq_refl). reflexivity.
Defined.









(** ** The active event *)

(** The callback of [find] answers [true] exactly on an event whose first
    competition has one of the two status names. *)
Lemma is_active_true e :
  is_active e = Normal true <->
  exists compet name,
    primary_competition e = Normal compet
    /\ truthy compet = true
    /\ status_name compet = Normal (VString name)
    /\ (name = "STATUS_IN_PROGRESS" \/ name = "STATUS_PLAY_COMPLETE")%string.
Proof.
  unfold is_active. split.
  - intros H.
    destruct (primary_competition e) as [compet| |]; cbn [bind] in H;
      try discriminate H.
    destruct (truthy compet) eqn:Ht; cbn [negb] in H; [|discriminate H].
    destruct (status_name compet) as [sn| |] eqn:Hs; cbn [bind] in H;
      try discriminate H.
    injection H as Hb. apply orb_true_iff in Hb.
    destruct Hb as [Hb | Hb]; apply is_string_true in Hb; subst sn;
      exists compet; eexists; repeat split; eauto.
  - intros [compet [name [Hp [Ht [Hs Hn]]]]]. rewrite Hp. cbn [bind].
    rewrite Ht. cbn [negb]. rewrite Hs. cbn [bind].
    destruct Hn as [-> | ->]; reflexivity.
Qed.

Lemma is_active_truthy e : is_active e = Normal true -> truthy e = true.
Proof.
  intros H. apply is_active_true in H.
  destruct H as [compet [name [Hp [Ht _]]]].
  unfold primary_competition in Hp.
  destruct e as [| |b|n|s|items|props]; try reflexivity; cbn in Hp;
    try discriminate Hp; inversion Hp; subst compet; discriminate Ht.
Qed.





(** ** The normalizer on a conforming feed *)





























(** * Further properties *)

(** ** What a snapshot looks like *)

Lemma player_built fin c idx y :
  player fin c idx = Normal y ->
  exists n sc th pos,
    y = VObject [("name", n); ("score", VString sc); ("thru", VString th);
                 ("position", VString pos)].
Proof.
  unfold player. intros H. split_bind H. injection H as <-. eauto 6.
Qed.

Lemma map_from_built fin :
  forall l idx mapped,
    map_from (player fin) idx l = Normal mapped ->
    Forall (fun y => exists n sc th pos,
                y = VObject [("name", n); ("score", VString sc);
                             ("thru", VString th); ("position", VString pos)])
      mapped.
Proof.
  induction l as [|x rest IH]; intros idx mapped H; cbn [map_from] in H.
  - injection H as <-. constructor.
  - destruct (player fin x idx) as [y| |] eqn:Hy; cbn [bind] in H;
      try discriminate H.
    destruct (map_from (player fin) (S idx) rest) as [ys| |] eqn:Hys;
      cbn [bind] in H; try discriminate H.
    injection H as <-. constructor.
    + exact (player_built _ _ _ _ Hy).
    + exact (IH _ _ Hys).
Qed.

(** X1: a snapshot is [{status: 'no_tournament'}] or an object with the six
    fields [status], [tournament], [round], [roundStatus], [players],
    [fetchedAt] in that order, where the tournament is truthy, the round
    starts with ["Round "], and the players are a non-empty list of objects
    with a truthy [name] and strings for [score], [thru] and [position]. *)
Theorem snapshot_shape :
  forall iso p snap,
    parseLeaderboard iso p = Normal snap ->
    snap = no_tournament
    \/ exists t r rs players,
        snap = VObject [("status", VString "ok"); ("tournament", t);
                        ("round", VString ("Round " ++ r));
                        ("roundStatus", rs); ("players", VArray players);
                        ("fetchedAt", VString iso)]
        /\ truthy t = true
        /\ players <> []
        /\ Forall (fun pl =>
                     exists n sc th pos,
                       pl = VObject [("name", n); ("score", VString sc);
                                     ("thru", VString th);
                                     ("position", VString pos)]
                       /\ truthy n = true) players.
Proof.
  intros iso p snap H. unfold parseLeaderboard in H.
  destruct (get p "events") as [ev| |]; cbn [bind] in H; try discriminate H.
  destruct (active_event (js_or ev (VArray []))) as [e| |];
    cbn [bind] in H; try discriminate H.
  destruct (negb (truthy e)); [injection H as <-; left; reflexivity|].
  destruct (primary_competition e) as [compet| |]; cbn [bind] in H;
    try discriminate H.
  destruct (negb (truthy compet)); [injection H as <-; left; reflexivity|].
  destruct (status_name compet) as [sn| |]; cbn [bind] in H;
    try discriminate H.
  destruct (negb (includes validStatuses sn));
    [injection H as <-; left; reflexivity|].
  destruct (round_number compet) as [rn| |] eqn:Hrn; cbn [bind] in H;
    try discriminate H.
  destruct (status_detail compet) as [sd| |]; cbn [bind] in H;
    try discriminate H.
  destruct (get compet "competitors") as [cs| |]; cbn [bind] in H;
    try discriminate H.
  destruct (array_map (js_or cs (VArray [])) "(compet.competitors || [])"
              (player (is_finished sn))) as [mapped| |] eqn:Hm;
    cbn [bind] in H; try discriminate H.
  destruct (filter has_name mapped) as [|pl0 pls] eqn:Hf;
    [injection H as <-; left; reflexivity|].
  cbn [List.length Nat.eqb] in H.
  destruct (get e "name") as [nm| |]; cbn [bind] in H; try discriminate H.
  destruct (to_string rn) as [r| |]; cbn [bind] in H; try discriminate H.
  injection H as <-. right.
  exists (js_or nm (VString "PGA Tour Event")), r, sd, (pl0 :: pls).
  split; [reflexivity|]. split; [|split; [discriminate|]].
  - unfold js_or. destruct (truthy nm) eqn:Ht; [exact Ht | reflexivity].
  - rewrite <- Hf. apply Forall_forall. intros pl Hin.
    apply filter_In in Hin. destruct Hin as [Hin Hn].
    assert (Forall (fun y => exists n sc th pos,
                        y = VObject [("name", n); ("score", VString sc);
                                     ("thru", VString th);
                                     ("position", VString pos)]) mapped)
      as Hall.
    { unfold array_map in Hm.
      destruct (js_or cs (VArray [])); try discriminate Hm.
      exact (map_from_built _ _ _ _ Hm). }
    rewrite Forall_forall in Hall.
    destruct (Hall pl Hin) as [n [sc [th [pos ->]]]].
    exists n, sc, th, pos. split; [reflexivity | exact Hn].
Qed.

Lemma snapshot_shape_witness :
  sample_snapshot = no_tournament
  \/ exists t r rs players,
      sample_snapshot
      = VObject [("status", VString "ok"); ("tournament", t);
                 ("round", VString ("Round " ++ r));
                 ("roundStatus", rs); ("players", VArray players);
                 ("fetchedAt", VString "2024-01-01T00:00:00.000Z")]
      /\ truthy t = true
      /\ players <> []
      /\ Forall (fun pl =>
                   exists n sc th pos,
                     pl = VObject [("name", n); ("score", VString sc);
                                   ("thru", VString th);
                                   ("position", VString pos)]
                     /\ truthy n = true) players.
Proof.
  apply (snapshot_shape "2024-01-01T00:00:00.000Z" sample_feed).
  reflexivity.
Defined.

(** ** The score as printed *)



(** ** From competitors to players *)

Lemma map_from_throws (f : value -> nat -> completion value) before :
  forall c rest idx ys e,
    map_from f idx before = Normal ys ->
    f c (idx + List.length before)%nat = Thrown e ->
    map_from f idx (before ++ c :: rest)%list = Thrown e.
Proof.
  induction before as [|x before IH]; intros c rest idx ys e Hb Hc.
  - cbn [app map_from List.length] in *. rewrite Nat.add_0_r in Hc.
    rewrite Hc. reflexivity.
  - cbn [app map_from] in *.
    destruct (f x idx) as [y| |]; cbn [bind] in *; try discriminate Hb.
    destruct (map_from f (S idx) before) as [ys'| |] eqn:Hrest;
      cbn [bind] in Hb; try discriminate Hb.
    rewrite (IH c rest (S idx) ys' e Hrest); [reflexivity|].
    cbn [List.length] in Hc. rewrite <- Hc. f_equal. lia.
Qed.

(** The round and the status text of a competition that is there are read
    without a throw. *)
Lemma round_and_detail_return compet :
  truthy compet = true ->
  (exists v, round_number compet = Normal v)
  /\ (exists v, status_detail compet = Normal v).
Proof.
  intros Ht. unfold round_number, status_detail.
  destruct compet as [| |b|n|s|items|props]; try discriminate Ht;
    cbn [get bind].
  1-4: cbn; eauto.
  set (st := match lookup "status" props with
             | Some x => x
             | None => VUndefined
             end).
  unfold js_and. destruct (truthy st) eqn:Hst; cbn [bind]; [|eauto].
  assert (forall name, exists v, get st name = Normal v) as Hget.
  { intros name. destruct st; try discriminate Hst; cbn [get]; eauto. }
  split.
  - destruct (Hget "period"%string) as [v ->]. cbn [bind]. eauto.
  - destruct (Hget "type"%string) as [ty ->]. cbn [bind].
    destruct (truthy ty) eqn:Hty; cbn [bind]; [|eauto].
    assert (exists v, get ty "shortDetail" = Normal v) as [v ->].
    { destruct ty; try discriminate Hty; cbn [get]; eauto. }
    cbn [bind]. eauto.
Qed.

(** X3: one competitor on which the callback throws makes the whole
    normalization throw, however many well-formed competitors surround it;
    the retrieval then ends as a failed refresh, with the cached snapshot
    if there is one and the error value otherwise. *)
Theorem one_bad_competitor_fails_the_refresh :
  forall iso p ev e compet name before c rest ys err,
    get p "events" = Normal ev ->
    active_event (js_or ev (VArray [])) = Normal e ->
    truthy e = true ->
    primary_competition e = Normal compet ->
    truthy compet = true ->
    status_name compet = Normal name ->
    includes validStatuses name = true ->
    get compet "competitors" = Normal (VArray (before ++ c :: rest)) ->
    map_from (player (is_finished name)) 0 before = Normal ys ->
    player (is_finished name) c (List.length before) = Thrown err ->
    parseLeaderboard iso p = Thrown err
    /\ (forall h s,
           isoNow h = iso -> fresh h s = false ->
           call h (Resolved p) s = failed err s).
Proof.
  intros iso p ev e compet name before c rest ys err
         Hev Ha Hte Hc Htc Hn Hv Hcs Hb Hbad.
  assert (parseLeaderboard iso p = Thrown err) as Hp.
  { unfold parseLeaderboard. rewrite Hev. cbn [bind]. rewrite Ha. cbn [bind].
    rewrite Hte. cbn [negb]. rewrite Hc. cbn [bind]. rewrite Htc.
    cbn [negb]. rewrite Hn. cbn [bind]. rewrite Hv. cbn [negb].
    destruct (round_and_detail_return compet Htc) as [[rn ->] [sd ->]].
    cbn [bind]. rewrite Hcs. cbn [bind js_or truthy array_map].
    rewrite (map_from_throws _ before c rest 0%nat ys err Hb Hbad).
    reflexivity. }
  split; [exact Hp|].
  intros h s Hi Hf. rewrite call_unfold, Hf, Hi, Hp. reflexivity.
Qed.

Lemma one_bad_competitor_fails_the_refresh_witness :
  parseLeaderboard "" null_competitor_feed
  = Thrown (TypeError "Cannot read properties of null (reading 'score')").
Proof.
  eapply (one_bad_competitor_fails_the_refresh "" null_competitor_feed
            _ _ _ _
            [VObject [("score", VString "-1");
                      ("athlete", VObject [("displayName", VString "A")])]]
            VNull).
  - reflexivity.
  - reflexivity.
  - reflexivity.
  - reflexivity.
  - reflexivity.
  - reflexivity.
  - reflexivity.
  - reflexivity.
  - reflexivity.
  - reflexivity.
Defined.

(** X4: the players of a snapshot are the competitors' entries in feed
    order with the unnamed ones left out: entry [i] is the callback's
    result on competitor [i] with index [i], so a competitor that is
    dropped still counts for the default position of those after it, and
    there are never more players than competitors. *)
Theorem players_follow_competitors :
  forall iso p ev e compet name cs snap players,
    get p "events" = Normal ev ->
    active_event (js_or ev (VArray [])) = Normal e ->
    primary_competition e = Normal compet ->
    status_name compet = Normal name ->
    get compet "competitors" = Normal (VArray cs) ->
    parseLeaderboard iso p = Normal snap ->
    get snap "players" = Normal (VArray players) ->
    exists mapped,
      List.length mapped = List.length cs
      /\ (forall i c,
             nth_error cs i = Some c ->
             exists y,
               player (is_finished name) c i = Normal y
               /\ nth_error mapped i = Some y)
      /\ players = filter has_name mapped
      /\ (List.length players <= List.length cs)%nat.
Proof.
  intros iso p ev e compet name cs snap players Hev Ha Hc Hn Hcs Hp Hpl.
  unfold parseLeaderboard in Hp. rewrite Hev in Hp. cbn [bind] in Hp.
  rewrite Ha in Hp. cbn [bind] in Hp.
  destruct (negb (truthy e)).
  { injection Hp as <-. discriminate Hpl. }
  rewrite Hc in Hp. cbn [bind] in Hp.
  destruct (negb (truthy compet)).
  { injection Hp as <-. discriminate Hpl. }
  rewrite Hn in Hp. cbn [bind] in Hp.
  destruct (negb (includes validStatuses name)).
  { injection Hp as <-. discriminate Hpl. }
  destruct (round_number compet) as [rn| |]; cbn [bind] in Hp;
    try discriminate Hp.
  destruct (status_detail compet) as [sd| |]; cbn [bind] in Hp;
    try discriminate Hp.
  rewrite Hcs in Hp. cbn [bind js_or truthy array_map] in Hp.
  destruct (map_from (player (is_finished name)) 0 cs) as [mapped| |] eqn:Hm;
    cbn [bind] in Hp; try discriminate Hp.
  destruct (List.length (filter has_name mapped) =? 0)%nat.
  { injection Hp as <-. discriminate Hpl. }
  destruct (get e "name") as [nm| |]; cbn [bind] in Hp; try discriminate Hp.
  destruct (to_string rn) as [r| |]; cbn [bind] in Hp; try discriminate Hp.
  injection Hp as <-. cbn in Hpl. injection Hpl as <-.
  destruct (map_from_nth _ _ _ _ Hm) as [Hlen Hnth].
  exists mapped. repeat split.
  - exact Hlen.
  - exact Hnth.
  - rewrite <- Hlen. apply filter_length_le.
Qed.

Lemma players_follow_competitors_witness :
  exists mapped,
    List.length mapped = 3%nat
    /\ (forall i c,
           nth_error
             [VObject [("score", VString "-1")];
              VObject [("score", VString "2");
                       ("athlete", VObject [("displayName", VString "B")])];
              VObject [("athlete", VObject [("displayName", VString "")])]]
             i = Some c ->
           exists y,
             player false c i = Normal y /\ nth_error mapped i = Some y)
    /\ [VObject [("name", VString "B"); ("score", VString "+2");
                 ("thru", VString "--"); ("position", VString "2")]]
       = filter has_name mapped
    /\ (1 <= 3)%nat.
Proof.
  refine (players_follow_competitors "" unnamed_competitor_feed _ _ _
            (VString "STATUS_IN_PROGRESS")
            [VObject [("score", VString "-1")];
             VObject [("score", VString "2");
                      ("athlete", VObject [("displayName", VString "B")])];
             VObject [("athlete", VObject [("displayName", VString "")])]]
            _
            [VObject [("name", VString "B"); ("score", VString "+2");
                      ("thru", VString "--"); ("position", VString "2")]]
            _ _ _ _ _ _ _); reflexivity.
Defined.

(** ** Which event is taken *)

Lemma find_in_result events :
  forall v,
    find_in is_active events = Normal v ->
    (v = VUndefined
     /\ Forall (fun x => is_active x = Normal false) events)
    \/ (is_active v = Normal true
        /\ exists before rest,
            events = (before ++ v :: rest)%list
            /\ Forall (fun x => is_active x = Normal false) before).
Proof.
  induction events as [|x rest IH]; intros v H; cbn [find_in] in H.
  - injection H as <-. left. split; [reflexivity | constructor].
  - destruct (is_active x) as [[|]| |] eqn:Hx; cbn [bind] in H;
      try discriminate H.
    + injection H as <-. right. split; [exact Hx|].
      exists [], rest. split; [reflexivity | constructor].
    + destruct (IH v H) as [[-> Hall] | [Hv [before [rest' [-> Hall]]]]].
      * left. split; [reflexivity | constructor; assumption].
      * right. split; [exact Hv|].
        exists (x :: before), rest'. split; [reflexivity|].
        constructor; assumption.
Qed.

(** X5: whatever event the normalizer takes is either the first one on
    which the callback answers true, no event before it matching, or, no
    event matching at all, the first of the list: an event that is neither
    in progress nor complete is never taken from any later place. *)
Theorem active_event_is_first_match_or_head :
  forall events e,
    active_event (VArray events) = Normal e ->
    (is_active e = Normal true
     /\ exists before rest,
         events = (before ++ e :: rest)%list
         /\ Forall (fun x => is_active x = Normal false) before)
    \/ (Forall (fun x => is_active x = Normal false) events
        /\ e = hd VUndefined events).
Proof.
  intros events e H. unfold active_event in H. cbn [array_find] in H.
  destruct (find_in is_active events) as [found| |] eqn:Hf;
    cbn [bind] in H; try discriminate H.
  destruct (find_in_result events found Hf)
    as [[-> Hall] | [Hact Hsplit]].
  - right. split; [exact Hall|].
    cbn [js_or_else truthy get_index Z.ltb Z.compare Z.to_nat] in H.
    destruct events; cbn [nth_error hd] in *; congruence.
  - left. unfold js_or_else in H.
    rewrite (is_active_truthy found Hact) in H. injection H as <-.
    split; assumption.
Qed.

Lemma active_event_is_first_match_or_head_witness :
  (is_active (VObject [("competitions",
                        VArray [sample_competition "STATUS_FINAL" []])])
   = Normal true
   /\ exists before rest,
       [VObject [("competitions",
                  VArray [sample_competition "STATUS_FINAL" []])];
        VObject [("competitions",
                  VArray [sample_competition "STATUS_SCHEDULED" []])]]
       = (before
          ++ VObject [("competitions",
                       VArray [sample_competition "STATUS_FINAL" []])]
          :: rest)%list
       /\ Forall (fun x => is_active x = Normal false) before)
  \/ (Forall (fun x => is_active x = Normal false)
        [VObject [("competitions",
                   VArray [sample_competition "STATUS_FINAL" []])];
         VObject [("competitions",
                   VArray [sample_competition "STATUS_SCHEDULED" []])]]
      /\ VObject [("competitions",
                   VArray [sample_competition "STATUS_FINAL" []])]
         = hd VUndefined
             [VObject [("competitions",
                        VArray [sample_competition "STATUS_FINAL" []])];
              VObject [("competitions",
                        VArray [sample_competition "STATUS_SCHEDULED" []])]]).
Proof.
  apply active_event_is_first_match_or_head. reflexivity.
Defined.

(** ** What a retrieval returns and prints *)

Lemma parseLeaderboard_status iso raw snap :
  parseLeaderboard iso raw = Normal snap ->
  snap = no_tournament \/ get snap "status" = Normal (VString "ok").
Proof.
  unfold parseLeaderboard. intros H.
  split_bind H; injection H as <-; auto.
Qed.

(** X6: a retrieval never throws and issues at most one fetch; what it
    returns is the cached value, or the snapshot just normalized, or, only
    when nothing is cached, the error object. *)
Theorem getLeaderboard_never_throws :
  forall h o s,
    (fetches (call h o s) <= 1)%nat
    /\ ((exists d,
            returned (call h o s) = Some (Normal d)
            /\ (d = cache s /\ truthy (cache s) = true
                \/ (exists e, d = error_value e /\ truthy (cache s) = false)
                \/ (exists raw,
                       o = Resolved raw
                       /\ parseLeaderboard (isoNow h) raw = Normal d)))
        \/ (returned (call h o s) = Some Inexact
            /\ exists raw,
                o = Resolved raw
                /\ parseLeaderboard (isoNow h) raw = Inexact)).
Proof.
  intros h o s. split.
  { rewrite call_fetches. destruct (fresh h s); lia. }
  rewrite call_unfold. destruct (fresh h s) eqn:F.
  { left. exists (cache s). split; [reflexivity|]. left.
    apply fresh_true in F. tauto. }
  assert (forall e,
             exists d,
               returned (failed e s) = Some (Normal d)
               /\ (d = cache s /\ truthy (cache s) = true
                   \/ (exists e', d = error_value e'
                                  /\ truthy (cache s) = false)
                   \/ (exists raw,
                          o = Resolved raw
                          /\ parseLeaderboard (isoNow h) raw = Normal d)))
    as Hfail.
  { intros e. unfold failed. cbn [returned].
    destruct (truthy (cache s)) eqn:Ht; eexists; (split; [reflexivity|]).
    - left. auto.
    - right. left. eauto. }
  destruct o as [raw|e]; [|left; apply Hfail].
  destruct (parseLeaderboard (isoNow h) raw) as [snap|e|] eqn:P.
  - left. exists snap. unfold refreshed.
    destruct (refreshed_summary snap) as [sm|e|] eqn:R; cbn [returned].
    + split; [reflexivity|]. right. right. eauto.
    + rewrite (parseLeaderboard_object _ _ _ P).
      split; [reflexivity|]. right. right. eauto.
    + exfalso. exact (refreshed_summary_exact _ R).
  - left. apply Hfail.
  - right. split; [reflexivity|]. eauto.
Qed.

(** X7: a call served from the cache prints nothing; a call whose fetch
    is rejected, or whose payload makes the normalizer throw, prints the one
    line [Fetch error: ] followed by the message; a call that stores a
    snapshot prints exactly one line. *)
Theorem getLeaderboard_console :
  forall h o s,
    (fresh h s = true -> console (call h o s) = [])
    /\ (fresh h s = false ->
        forall e,
          (o = Rejected e
           \/ exists raw,
               o = Resolved raw
               /\ parseLeaderboard (isoNow h) raw = Thrown e) ->
          console (call h o s) = [Err ("Fetch error: " ++ message e)%string])
    /\ (fresh h s = false ->
        forall raw snap,
          o = Resolved raw ->
          parseLeaderboard (isoNow h) raw = Normal snap ->
          exists l, console (call h o s) = [l]).
Proof.
  intros h o s. rewrite call_unfold. split; [|split].
  - intros ->. reflexivity.
  - intros -> e [-> | [raw [-> P]]]; [reflexivity|].
    rewrite P. reflexivity.
  - intros -> raw snap -> P. rewrite P. unfold refreshed.
    destruct (refreshed_summary snap) as [sm|e|] eqn:R; cbn [console]; eauto.
    exfalso. exact (refreshed_summary_exact _ R).
Qed.

Lemma getLeaderboard_console_witness :
  console (call (at_time 70000) (Resolved sample_feed)
             {| cache := sample_snapshot; cacheTime := 65000 |}) = []
  /\ console (call (at_time 1000) (Resolved numeric_status_feed) initial_store)
     = [Err ("Fetch error: " ++ status_expression
             ++ ".toLowerCase is not a function")%string]
  /\ exists l,
      console (call (at_time 1000) (Resolved sample_feed) initial_store) = [l].
Proof.
  split; [|split].
  - destruct (getLeaderboard_console (at_time 70000) (Resolved sample_feed)
                {| cache := sample_snapshot; cacheTime := 65000 |})
      as [A _].
    apply A. reflexivity.
  - destruct (getLeaderboard_console (at_time 1000)
                (Resolved numeric_status_feed) initial_store)
      as [_ [B _]].
    apply (B eq_refl
             (TypeError (status_expression
                         ++ ".toLowerCase is not a function")%string)).
    right. exists numeric_status_feed. split; reflexivity.
  - destruct (getLeaderboard_console (at_time 1000) (Resolved sample_feed)
                initial_store)
      as [_ [_ C]].
    apply (C eq_refl sample_feed sample_snapshot); reflexivity.
Defined.

(** X8: the line printed after a refresh.  For a [no_tournament] snapshot
    it ends in [no_tournament]; for an [ok] snapshot whose tournament name
    is a string it gives the name, the round and the number of players. *)
Theorem refreshed_line :
  forall h raw s snap,
    fresh h s = false ->
    parseLeaderboard (isoNow h) raw = Normal snap ->
    (snap = no_tournament ->
     console (call h (Resolved raw) s)
     = [Log ("[" ++ localeTime h
             ++ "] Leaderboard refreshed - no_tournament")%string])
    /\ (forall t r players,
           get snap "status" = Normal (VString "ok") ->
           get snap "tournament" = Normal (VString t) ->
           get snap "round" = Normal (VString r) ->
           get snap "players" = Normal (VArray players) ->
           console (call h (Resolved raw) s)
           = [Log ("[" ++ localeTime h ++ "] Leaderboard refreshed - "
                   ++ t ++ " " ++ r ++ " ("
                   ++ number_to_string (Z.of_nat (List.length players))
                   ++ " players)")%string]).
Proof.
  intros h raw s snap F P. rewrite call_unfold, F, P. unfold refreshed.
  split.
  - intros ->. reflexivity.
  - intros t r players Hs Ht Hr Hp.
    assert (refreshed_summary snap
            = Normal (t ++ " " ++ r ++ " ("
                      ++ number_to_string (Z.of_nat (List.length players))
                      ++ " players)")%string) as ->.
    { unfold refreshed_summary. rewrite Hs. cbn [bind is_string].
      rewrite String.eqb_refl. rewrite Ht. cbn [bind to_string].
      rewrite Hr. cbn [bind to_string]. rewrite Hp.
      cbn [bind get to_string]. reflexivity. }
    reflexivity.
Qed.

Lemma refreshed_line_witness :
  console (call (at_time 1000) (Resolved sample_feed) initial_store)
  = [Log "[12:00:00 AM] Leaderboard refreshed - The Open Round 2 (2 players)"]
  /\ console (call (at_time 1000) (Resolved (VObject [])) initial_store)
     = [Log "[12:00:00 AM] Leaderboard refreshed - no_tournament"].
Proof.
  split.
  - destruct (refreshed_line (at_time 1000) sample_feed initial_store
                sample_snapshot eq_refl eq_refl) as [_ B].
    apply (B "The Open"%string "Round 2"%string
             [VObject [("name", VString "A"); ("score", VString "E");
                       ("thru", VString "2"); ("position", VString "1")];
              VObject [("name", VString "B"); ("score", VString "-2");
                       ("thru", VString "--"); ("position", VString "MC")]]);
      reflexivity.
  - destruct (refreshed_line (at_time 1000) (VObject []) initial_store
                no_tournament eq_refl eq_refl) as [A _].
    apply A. reflexivity.
Defined.

(** X9: a refresh can succeed and still be reported as an error.  When the
    tournament name of the new snapshot cannot be converted to a string,
    building the log line throws after the snapshot has been stored: the
    call prints [Fetch error], returns the new snapshot and keeps it
    cached. *)
Theorem refresh_logged_as_error :
  forall h raw s snap t e,
    fresh h s = false ->
    parseLeaderboard (isoNow h) raw = Normal snap ->
    get snap "status" = Normal (VString "ok") ->
    get snap "tournament" = Normal t ->
    to_string t = Thrown e ->
    returned (call h (Resolved raw) s) = Some (Normal snap)
    /\ after (call h (Resolved raw) s)
       = {| cache := snap; cacheTime := now h |}
    /\ console (call h (Resolved raw) s)
       = [Err ("Fetch error: " ++ message e)%string].
Proof.
  intros h raw s snap t e F P Hs Ht He.
  rewrite call_unfold, F, P. unfold refreshed.
  assert (refreshed_summary snap = Thrown e) as ->.
  { unfold refreshed_summary. rewrite Hs. cbn [bind is_string].
    rewrite String.eqb_refl. rewrite Ht. cbn [bind]. rewrite He.
    reflexivity. }
  cbn [returned after console].
  rewrite (parseLeaderboard_object _ _ _ P). repeat split.
Qed.

Lemma refresh_logged_as_error_witness :
  console (call (at_time 1000) (Resolved unprintable_name_feed) initial_store)
  = [Err "Fetch error: Cannot convert object to primitive value"].
Proof.
  destruct (refresh_logged_as_error (at_time 1000) unprintable_name_feed
              initial_store _ (VObject [("toString", VNull)])
              (TypeError "Cannot convert object to primitive value")
              eq_refl eq_refl eq_refl eq_refl eq_refl) as [_ [_ C]].
  exact C.
Defined.

(** ** Many calls *)

Lemma failed_call h o s :
  fresh h s = false -> fails h o ->
  fetches (call h o s) = 1%nat /\ after (call h o s) = s.
Proof.
  intros F [[e ->] | [raw [e [-> P]]]]; rewrite call_unfold, F.
  - split; reflexivity.
  - rewrite P. split; reflexivity.
Qed.

(** X10: failures are not remembered.  While every refresh fails, each
    call on an empty or expired cache issues its own fetch: [n] calls, [n]
    fetches, the store as it was. *)
Theorem failing_refreshes_are_retried_every_call :
  forall calls s,
    Forall (fun c => fresh (fst c) s = false /\ fails (fst c) (snd c)) calls ->
    session calls s = (List.length calls, s).
Proof.
  induction calls as [|[h o] rest IH]; intros s H; [reflexivity|].
  inversion H as [|? ? [F Hf] Hrest]. subst.
  cbn [session fst snd] in *.
  destruct (failed_call h o s F Hf) as [-> ->].
  rewrite (IH s Hrest). reflexivity.
Qed.

Lemma failing_refreshes_are_retried_every_call_witness :
  session [(at_time 1000, Rejected (Error "Request timed out"));
           (at_time 1001, Resolved numeric_status_feed);
           (at_time 1002, Rejected (Error "socket hang up"))] initial_store
  = (3%nat, initial_store).
Proof.
  apply (failing_refreshes_are_retried_every_call
           [(at_time 1000, Rejected (Error "Request timed out"));
            (at_time 1001, Resolved numeric_status_feed);
            (at_time 1002, Rejected (Error "socket hang up"))]
           initial_store).
  apply Forall_cons.
  { split; [reflexivity | left; eexists; reflexivity]. }
  apply Forall_cons.
  { split; [reflexivity|]. right. exists numeric_status_feed.
    eexists. split; reflexivity. }
  apply Forall_cons.
  { split; [reflexivity | left; eexists; reflexivity]. }
  apply Forall_nil.
Defined.

(** X11: while the cached snapshot is younger than 60 seconds, any number
    of calls one after the other issue no fetch and leave the store as it
    is. *)
Theorem fresh_cache_serves_every_call :
  forall calls s,
    Forall (fun c => fresh (fst c) s = true) calls ->
    session calls s = (0%nat, s)
    /\ Forall (fun c =>
                 returned (call (fst c) (snd c) s) = Some (Normal (cache s)))
         calls.
Proof.
  induction calls as [|[h o] rest IH]; intros s H.
  - split; [reflexivity | constructor].
  - inversion H as [|? ? F Hrest]. subst. cbn [fst snd] in *.
    destruct (IH s Hrest) as [Hs Hr].
    assert (call h o s = served s) as Hc by (rewrite call_unfold, F; reflexivity).
    split.
    + cbn [session]. rewrite Hc. cbn [after fetches served]. rewrite Hs.
      reflexivity.
    + constructor; [cbn [fst snd]; rewrite Hc; reflexivity | exact Hr].
Qed.

Lemma fresh_cache_serves_every_call_witness :
  session [(at_time 70000, Rejected (Error "Request timed out"));
           (at_time 80000, Resolved sample_feed);
           (at_time 124999, Resolved numeric_status_feed)]
    {| cache := sample_snapshot; cacheTime := 65000 |}
  = (0%nat, {| cache := sample_snapshot; cacheTime := 65000 |}).
Proof.
  apply (fresh_cache_serves_every_call
           [(at_time 70000, Rejected (Error "Request timed out"));
            (at_time 80000, Resolved sample_feed);
            (at_time 124999, Resolved numeric_status_feed)]
           {| cache := sample_snapshot; cacheTime := 65000 |}).
  repeat constructor.
Defined.

(** ** The store under any interleaving *)

Lemma advance_getLeaderboard_keeps h s out :
  advance h getLeaderboard s out = (Finished (Normal (cache s)), s, out)
  \/ exists k,
      advance h getLeaderboard s out = (Suspended k, s, out)
      /\ keeps_snapshots k.
Proof.
  unfold getLeaderboard. cbn [then_ perform advance answer].
  destruct (is_fresh (cache s) (cacheTime s) (now h)).
  - left. reflexivity.
  - right. cbn [try_catch fetchESPN then_ advance].
    eexists. split; [reflexivity|].
    intros h' o s' out'. cbn beta.
    destruct o as [raw|e]; cbn [try_catch then_ advance answer perform].
    2: { destruct (truthy (cache s')); cbn;
           do 3 eexists;
           (split; [reflexivity | split; [discriminate | left; reflexivity]]). }
    destruct (parseLeaderboard (isoNow h') raw) as [snap|e|] eqn:P;
      cbn [lift try_catch then_ advance answer perform cache cacheTime].
    2: { destruct (truthy (cache s')); cbn;
           do 3 eexists;
           (split; [reflexivity | split; [discriminate | left; reflexivity]]). }
    2: { do 3 eexists.
         split; [reflexivity | split; [discriminate | left; reflexivity]]. }
    destruct (refreshed_summary snap) as [sm|e|];
      cbn [lift try_catch then_ advance answer perform cache cacheTime].
    + do 3 eexists. split; [reflexivity | split; [discriminate|]].
      right. eauto.
    + destruct (truthy snap); cbn;
        do 3 eexists; (split; [reflexivity | split; [discriminate|]]);
        right; eauto.
    + do 3 eexists. split; [reflexivity | split; [discriminate|]].
      right. eauto.
Qed.

Lemma take_Forall (P : (settled -> task value) -> Prop) id l k rest :
  take id l = Some (k, rest) ->
  Forall (fun ik => P (snd ik)) l ->
  P k /\ Forall (fun ik => P (snd ik)) rest.
Proof.
  revert k rest. induction l as [|[i k0] l IH]; intros k rest H Hall;
    cbn [take] in H; [discriminate H|].
  inversion Hall as [|? ? Hk0 Hl]. subst. cbn [snd] in Hk0.
  destruct (i =? id)%nat.
  - injection H as <- <-. split; assumption.
  - destruct (take id l) as [[k' rest']|] eqn:Ht; [|discriminate H].
    injection H as <- <-. destruct (IH k' rest' eq_refl Hl) as [Hk Hr].
    split; [exact Hk | constructor; assumption].
Qed.

Lemma turn_sound id h (t : task value) sv waiting r s' out :
  advance h t (mem sv) (printed sv) = (Finished r, s', out) ->
  (forall e, r <> Thrown e) ->
  snapshot_or_null (cache s') ->
  Forall (fun ik => keeps_snapshots (snd ik)) waiting ->
  Forall (fun ir => forall e, snd ir <> Thrown e) (replies sv) ->
  sound (turn id h t sv waiting).
Proof.
  intros Ha Hr Hs Hw Hrep. unfold turn. rewrite Ha.
  split; [exact Hs | split; [exact Hw|]].
  cbn [replies]. apply Forall_app. split; [exact Hrep|].
  constructor; [exact Hr | constructor].
Qed.

Lemma step_sound sv ev : sound sv -> sound (step sv ev).
Proof.
  intros [Hc [Hf Hr]]. destruct ev as [id h | id o h]; cbn [step].
  - destruct (advance_getLeaderboard_keeps h (mem sv) (printed sv))
      as [Ha | [k [Ha Hk]]].
    + apply (turn_sound _ _ _ _ _ _ _ _ Ha); try assumption. discriminate.
    + unfold turn. rewrite Ha. split; [exact Hc | split; [|exact Hr]].
      cbn [in_flight]. apply Forall_app. split; [exact Hf|].
      constructor; [exact Hk | constructor].
  - destruct (take id (in_flight sv)) as [[k rest]|] eqn:Ht;
      [|split; [exact Hc | split; assumption]].
    destruct (take_Forall keeps_snapshots id _ k rest Ht Hf) as [Hk Hrest].
    destruct (Hk h o (mem sv) (printed sv))
      as [r [s'' [out'' [Ha [Hnt Hstore]]]]].
    apply (turn_sound _ _ _ _ _ _ _ _ Ha); try assumption.
    destruct Hstore as [-> | [raw [snap [t [P ->]]]]]; [exact Hc|].
    right. cbn [cache]. eauto.
Qed.

Lemma play_sound evs : forall sv, sound sv -> sound (play evs sv).
Proof.
  induction evs as [|ev evs IH]; intros sv H; [exact H|].
  cbn [play fold_left]. apply IH. apply step_sound. exact H.
Qed.

(** X12: however calls arrive and fetches settle, overlapping or not, the
    cache holds either nothing or a snapshot the normalizer returned, with
    status [no_tournament] or [ok]: the error object is never stored, and
    no call ends in a throw. *)
Theorem cache_holds_only_snapshots :
  forall evs s,
    snapshot_or_null (cache s) ->
    (cache (mem (play evs (boot s))) = VNull
     \/ cache (mem (play evs (boot s))) = no_tournament
     \/ get (cache (mem (play evs (boot s)))) "status"
        = Normal (VString "ok"))
    /\ (forall id r e,
           In (id, r) (replies (play evs (boot s))) -> r <> Thrown e).
Proof.
  intros evs s Hs.
  assert (sound (boot s)) as Hb.
  { split; [exact Hs | split; constructor]. }
  destruct (play_sound evs (boot s) Hb) as [Hc [_ Hr]].
  split.
  - destruct Hc as [-> | [iso [raw P]]]; [left; reflexivity|].
    right. exact (parseLeaderboard_status _ _ _ P).
  - intros id r e Hin. rewrite Forall_forall in Hr.
    exact (Hr (id, r) Hin e).
Qed.

Lemma cache_holds_only_snapshots_witness :
  cache (mem (play [Arrives 0%nat (at_time 1000); Arrives 1%nat (at_time 1001);
                    Settles 1%nat (Rejected (Error "Request timed out"))
                      (at_time 1500);
                    Settles 0%nat (Resolved (VObject [])) (at_time 1600)]
                (boot initial_store))) = VNull
  \/ cache (mem (play [Arrives 0%nat (at_time 1000);
                       Arrives 1%nat (at_time 1001);
                       Settles 1%nat (Rejected (Error "Request timed out"))
                         (at_time 1500);
                       Settles 0%nat (Resolved (VObject [])) (at_time 1600)]
                   (boot initial_store))) = no_tournament
  \/ get (cache (mem (play [Arrives 0%nat (at_time 1000);
                            Arrives 1%nat (at_time 1001);
                            Settles 1%nat
                              (Rejected (Error "Request timed out"))
                              (at_time 1500);
                            Settles 0%nat (Resolved (VObject []))
                              (at_time 1600)]
                        (boot initial_store)))) "status"
     = Normal (VString "ok").
Proof.
  apply (cache_holds_only_snapshots
           [Arrives 0%nat (at_time 1000); Arrives 1%nat (at_time 1001);
            Settles 1%nat (Rejected (Error "Request timed out"))
              (at_time 1500);
            Settles 0%nat (Resolved (VObject [])) (at_time 1600)]
           initial_store).
  left. reflexivity.
Defined.

(** ** What the front door answers and does *)

Lemma serve_elsewhere req h o s :
  method req = "OPTIONS"%string
  \/ (url req <> "/"%string /\ url req <> "/leaderboard"%string) ->
  exists r,
    serve req h o s
    = {| returned := Some (Normal r); after := s; fetches := 0%nat;
         console := [] |}
    /\ (code r = 204 \/ code r = 200 \/ code r = 404)
    /\ headers r = fixed_headers.
Proof.
  intros H. unfold serve, handler.
  destruct (method req =? "OPTIONS")%string eqn:Hm.
  { eexists. split; [reflexivity|]. cbn. auto. }
  destruct H as [H | [H1 H2]].
  { rewrite H in Hm. discriminate Hm. }
  apply String.eqb_neq in H1, H2. rewrite H1, H2. cbn [orb].
  destruct (url req =? "/health")%string;
    eexists; (split; [reflexivity|]); cbn; auto.
Qed.

(** X13: the handler answers every request, with the four fixed headers
    and one of the codes 200, 204 and 404.  It never answers 500:
    [getLeaderboard] catches everything itself, so the handler's own
    [catch] is never entered. *)
Theorem handler_never_answers_500 :
  forall req h o s,
    (exists r,
        returned (serve req h o s) = Some (Normal r)
        /\ (code r = 200 \/ code r = 204 \/ code r = 404)
        /\ headers r = fixed_headers)
    \/ (returned (serve req h o s) = Some Inexact
        /\ exists raw,
            o = Resolved raw
            /\ parseLeaderboard (isoNow h) raw = Inexact).
Proof.
  intros req h o s.
  destruct (string_dec (method req) "OPTIONS") as [Hm | Hm].
  { destruct (serve_elsewhere req h o s (or_introl Hm)) as [r [-> [Hc Hh]]].
    left. exists r. cbn [returned]. intuition. }
  destruct (string_dec (url req) "/") as [H1 | H1];
    [|destruct (string_dec (url req) "/leaderboard") as [H2 | H2]].
  3: { destruct (serve_elsewhere req h o s (or_intror (conj H1 H2)))
         as [r [-> [Hc Hh]]].
       left. exists r. cbn [returned]. intuition. }
  all: (rewrite (serve_leaderboard req h o s Hm) by auto;
        cbn [returned];
        destruct (call_returns h o s) as [[d ->] | [raw [Ho [_ [P ->]]]]];
        [left; eexists; cbn; repeat split; auto
        | right; split; [reflexivity | eauto]]).
Qed.

(** X14: a request that is not for the leaderboard, whatever its method,
    and every [OPTIONS] request, even for [/leaderboard], leaves the store
    as it is, issues no fetch and prints nothing; a request for the
    leaderboard changes the store, fetches and prints exactly as
    [getLeaderboard] does. *)
Theorem handler_effects :
  forall req h o s,
    (method req = "OPTIONS"%string
     \/ (url req <> "/"%string /\ url req <> "/leaderboard"%string) ->
     after (serve req h o s) = s
     /\ fetches (serve req h o s) = 0%nat
     /\ console (serve req h o s) = [])
    /\ (method req <> "OPTIONS"%string ->
        url req = "/"%string \/ url req = "/leaderboard"%string ->
        after (serve req h o s) = after (call h o s)
        /\ fetches (serve req h o s) = fetches (call h o s)
        /\ console (serve req h o s) = console (call h o s)).
Proof.
  intros req h o s. split.
  - intros H. destruct (serve_elsewhere req h o s H) as [r [-> _]].
    repeat split.
  - intros Hm Hu. rewrite (serve_leaderboard req h o s Hm Hu). repeat split.
Qed.

Lemma handler_effects_witness :
  after (serve {| method := "OPTIONS"; url := "/leaderboard" |}
           (at_time 1000) (Resolved sample_feed) initial_store)
  = initial_store
  /\ fetches (serve {| method := "DELETE"; url := "/leaderboard" |}
                (at_time 1000) (Resolved sample_feed) initial_store)
     = fetches (call (at_time 1000) (Resolved sample_feed) initial_store).
Proof.
  split.
  - apply (handler_effects {| method := "OPTIONS"; url := "/leaderboard" |}
             (at_time 1000) (Resolved sample_feed) initial_store).
    left. reflexivity.
  - apply (handler_effects {| method := "DELETE"; url := "/leaderboard" |}
             (at_time 1000) (Resolved sample_feed) initial_store);
      [discriminate | right; reflexivity].
Defined.

(** ** Start-up *)






(** ** The remote fetcher *)




Section FetcherFacts.

Variable JSON_parse : string -> option value.

Lemma settled_stays evs :
  forall st o,
    promise st = Some o ->
    promise (fold_left (react JSON_parse) evs st) = Some o.
Proof.
  induction evs as [|ev evs IH]; intros st o H; [exact H|].
  cbn [fold_left]. apply IH.
  destruct ev; cbn [react promise]; try exact H;
    try (unfold settle; rewrite H; exact H).
  destruct (data st); [unfold settle; rewrite H|]; exact H.
Qed.


Lemma quiet_events_settle_nothing evs :
  forall st,
    forallb is_quiet evs = true ->
    promise (fold_left (react JSON_parse) evs st) = promise st.
Proof.
  induction evs as [|ev evs IH]; intros st H; [reflexivity|].
  cbn [forallb] in H. apply andb_prop in H. destruct H as [Hq Hrest].
  cbn [fold_left]. rewrite (IH _ Hrest).
  destruct ev; try discriminate Hq; reflexivity.
Qed.

(** X16: the promise keeps its first settlement: once resolved or
    rejected, no later data, end, error or timeout changes the outcome, so
    the outcome of a run of events is that of any prefix that has
    settled. *)
Theorem fetchESPN_settles_once :
  forall evs st o,
    promise st = Some o ->
    promise (fold_left (react JSON_parse) evs st) = Some o
    /\ (forall before,
           fetch_outcome JSON_parse before = Some o ->
           fetch_outcome JSON_parse (before ++ evs)%list = Some o).
Proof.
  intros evs st o H. split.
  - apply settled_stays. exact H.
  - intros before Hb. unfold fetch_outcome in *.
    rewrite fold_left_app. apply settled_stays. exact Hb.
Qed.


(** X18: until the response ends, the request fails or the socket times
    out, the promise is pending; the first timeout rejects it with
    [Request timed out] and the first request error with that error,
    whatever has been received and whatever follows. *)
Theorem fetchESPN_first_failure_wins :
  forall quiet rest,
    forallb is_quiet quiet = true ->
    fetch_outcome JSON_parse quiet = None
    /\ fetch_outcome JSON_parse (quiet ++ SocketTimeout :: rest)%list
       = Some (Rejected (Error "Request timed out"))
    /\ (forall e,
           fetch_outcome JSON_parse (quiet ++ RequestError e :: rest)%list
           = Some (Rejected e)).
Proof.
  intros quiet rest Hq. unfold fetch_outcome.
  pose proof (quiet_events_settle_nothing quiet opened Hq) as Hp.
  cbn [opened promise] in Hp.
  split; [exact Hp|]. split; [|intros e];
    rewrite fold_left_app; cbn [fold_left react];
    apply settled_stays; unfold settle; rewrite Hp; reflexivity.
Qed.


End FetcherFacts.

Lemma fetchESPN_settles_once_witness :
  promise (fold_left (react sample_parse)
             [Data "x"; End; RequestError (Error "socket hang up")]
             {| data := Some "{}"%string;
                promise := Some (Rejected (Error "Request timed out")) |})
  = Some (Rejected (Error "Request timed out")).
Proof.
  apply (fetchESPN_settles_once sample_parse). reflexivity.
Defined.

Lemma fetchESPN_first_failure_wins_witness :
  fetch_outcome sample_parse
    [Response 200; Data "{"; SocketTimeout; Data "}"; End]
  = Some (Rejected (Error "Request timed out")).
Proof.
  apply (fetchESPN_first_failure_wins sample_parse
           [Response 200; Data "{"%string] [Data "}"%string; End]).
  reflexivity.
Defined.

